(** * SimpleDevWinMCP: the path resolver and the file-system tools

    A shallow embedding of [src/file_system.py].  Python's [str] is Rocq's
    [string], one [ascii] per code point, so the model covers the code points
    U+0000 to U+00FF.  Paths follow the POSIX flavour of [pathlib]: the
    separator is [/], names are case sensitive, and the file system holds no
    symbolic links.  Failures of the environment (permissions, a full disk,
    busy mount points) are not part of the model; the exceptions that the
    modelled calls raise on the state of the file system are. *)

From Stdlib Require Import ZArith Lia Ascii String List Bool.
From stdpp Require Import base option list strings pretty gmap fin_maps sorting.

Local Open Scope string_scope.
Local Open Scope list_scope.

(** ** Exceptions and the result monad *)

(** The exceptions (all subclasses of Python's [Exception]) that the modelled
    code can raise; each carries the text that [str(e)] renders. *)
Inductive exn : Type :=
| ValueError (msg : string)
| LookupError (msg : string)
| UnicodeError (msg : string)
| OverflowError (msg : string)
| FileNotFoundError (msg : string)
| FileExistsError (msg : string)
| NotADirectoryError (msg : string)
| IsADirectoryError (msg : string)
| OSError (msg : string)
| ShutilError (msg : string)
| JSONDecodeError (msg : string).

Definition str_exn (e : exn) : string :=
  match e with
  | ValueError m | LookupError m | UnicodeError m | OverflowError m
  | FileNotFoundError m | FileExistsError m | NotADirectoryError m
  | IsADirectoryError m | OSError m | ShutilError m | JSONDecodeError m => m
  end.

(** [except OSError] catches the operating system's errors only. *)
Definition is_OSError (e : exn) : bool :=
  match e with
  | FileNotFoundError _ | FileExistsError _ | NotADirectoryError _
  | IsADirectoryError _ | OSError _ | ShutilError _ => true
  | _ => false
  end.

Inductive result (A : Type) : Type :=
| Ok (a : A)
| Raise (e : exn).
Arguments Ok {A} a.
Arguments Raise {A} e.

Definition bind {A B : Type} (m : result A) (k : A -> result B) : result B :=
  match m with
  | Ok a => k a
  | Raise e => Raise e
  end.

Notation "'let?' x ':=' m 'in' k" := (bind m (fun x => k))
  (at level 10, x name, m at level 100, k at level 200).

(** ** Strings *)

Module Str.

(** [s.startswith(pre)] *)
Fixpoint startswith (pre s : string) : bool :=
  match pre, s with
  | EmptyString, _ => true
  | String a pre', String b s' => Ascii.eqb a b && startswith pre' s'
  | String _ _, EmptyString => false
  end.

(** [s.split(sep)] for a one-character separator. *)
Fixpoint split_on (sep : ascii) (s : string) : list string :=
  match s with
  | EmptyString => [EmptyString]
  | String c s' =>
      if Ascii.eqb c sep then EmptyString :: split_on sep s'
      else match split_on sep s' with
           | [] => [String c EmptyString]
           | w :: ws => String c w :: ws
           end
  end.

(** [sep.join(l)] *)
Definition join (sep : string) (l : list string) : string := String.concat sep l.

(** [c in s] for a character [c]. *)
Fixpoint has_char (c : ascii) (s : string) : bool :=
  match s with
  | EmptyString => false
  | String a s' => Ascii.eqb a c || has_char c s'
  end.

(** [sub in s] *)
Fixpoint contains (sub s : string) : bool :=
  startswith sub s ||
  match s with
  | EmptyString => false
  | String _ s' => contains sub s'
  end.

Definition lower_char (c : ascii) : ascii :=
  let n := nat_of_ascii c in
  if (65 <=? n)%nat && (n <=? 90)%nat then ascii_of_nat (n + 32)
  else if ((192 <=? n)%nat && (n <=? 222)%nat && negb (n =? 215)%nat)
  then ascii_of_nat (n + 32)
  else c.

(** [s.lower()] on the code points below 256. *)
Fixpoint lower (s : string) : string :=
  match s with
  | EmptyString => EmptyString
  | String c s' => String (lower_char c) (lower s')
  end.

Fixpoint repeat_char (c : ascii) (n : nat) : string :=
  match n with
  | O => EmptyString
  | S n' => String c (repeat_char c n')
  end.

(** [s.ljust(w)] and [s.rjust(w)], as the format specs [{s:w}] and [{s:>w}] pad. *)
Definition ljust (w : nat) (s : string) : string :=
  s +:+ repeat_char " " (w - String.length s).
Definition rjust (w : nat) (s : string) : string :=
  repeat_char " " (w - String.length s) +:+ s.

End Str.

(** ** pathlib *)

Module PathLib.

(** A parsed path: whether it starts at the root, and its components.
    Parsing drops empty components and single dots, as [pathlib] does. *)
Record PurePath : Type := mkPath { is_absolute : bool; parts : list string }.

Definition keep_part (c : string) : bool :=
  negb (String.eqb c "") && negb (String.eqb c ".").

Definition Path (s : string) : PurePath :=
  {| is_absolute := Str.startswith "/" s;
     parts := List.filter keep_part (Str.split_on "/" s) |}.

(** A resolved path is absolute and free of dots: the components below the root. *)
Abbreviation rpath := (list string).

(** [str(p)] of a resolved path. *)
Definition str (p : rpath) : string := "/" +:+ Str.join "/" p.

(** [str(p)] of a path as parsed. *)
Definition str_pure (p : PurePath) : string :=
  if is_absolute p then "/" +:+ Str.join "/" (parts p)
  else match parts p with
       | [] => "."
       | _ => Str.join "/" (parts p)
       end.

(** [p / path]: an absolute [path] replaces what stands before it. *)
Definition joinpure (p : PurePath) (path : string) : PurePath :=
  let q := Path path in
  if is_absolute q then q
  else {| is_absolute := is_absolute p; parts := parts p ++ parts q |}.

(** [base / path] for a resolved [base]. *)
Definition joinpath (base : rpath) (path : string) : PurePath :=
  joinpure {| is_absolute := true; parts := base |} path.

(** [os.path.relpath(p, start)] on resolved paths: the common components
    are dropped and each remaining component of [start] is climbed. *)
Fixpoint relparts (start p : rpath) : list string :=
  match start, p with
  | a :: start', b :: p' =>
      if String.eqb a b then relparts start' p'
      else List.repeat ".." (length start) ++ p
  | [], _ => p
  | _ :: _, [] => List.repeat ".." (length start)
  end.

Definition relpath (p start : rpath) : string :=
  match relparts start p with
  | [] => "."
  | l => Str.join "/" l
  end.

(** Collapsing [..]: [rstack] is the resolved prefix, innermost component
    first; the parent of the root is the root. *)
Fixpoint collapse (rstack : list string) (todo : list string) : rpath :=
  match todo with
  | [] => List.rev rstack
  | c :: todo' =>
      if String.eqb c ".." then collapse (List.tl rstack) todo'
      else collapse (c :: rstack) todo'
  end.

Definition NUL : ascii := Ascii.zero.

(** [Path.resolve()]: the path is made absolute against the working
    directory and collapsed.  The operating system refuses a NUL character,
    which surfaces as a [ValueError]. *)
Definition resolve (cwd : rpath) (p : PurePath) : result rpath :=
  if existsb (Str.has_char NUL) (parts p)
  then Raise (ValueError "embedded null byte")
  else Ok (collapse (List.rev (if is_absolute p then [] else cwd)) (parts p)).

(** [p.parent] and [p.name] of a resolved path. *)
Definition parent (p : rpath) : rpath := List.removelast p.
Definition name (p : rpath) : string := List.last p "".

(** [p.suffix]: the last dot of the name and what follows it, unless the
    dot is the first or the last character of the name. *)
Fixpoint last_dot (s : string) : option string :=
  match s with
  | EmptyString => None
  | String c s' =>
      match last_dot s' with
      | Some r => Some r
      | None => if Ascii.eqb c "." then Some s else None
      end
  end.

Definition suffix (p : rpath) : string :=
  match name p with
  | EmptyString => ""
  | String c rest =>
      match last_dot rest with
      | Some s => if String.eqb s "." then "" else s
      | None => ""
      end
  end.

End PathLib.
Import PathLib.

(** ** The path resolver *)

(** [safe_path]: an empty [base_path] is falsy, like [None]. *)
Definition safe_path (cwd : rpath) (path : string) (base_path : option string)
  : result rpath :=
  match base_path with
  | Some (String c b) =>
      let? base := resolve cwd (Path (String c b)) in
      let? target := resolve cwd (joinpath base path) in
      if negb (Str.startswith (str base) (str target))
      then Raise (ValueError ("Path " +:+ path +:+ " is outside the allowed directory"))
      else Ok target
  | _ => resolve cwd (Path path)
  end.

(** ** Size formatting *)

Module Num.

Local Open Scope Z_scope.

(** [float(n)] for an int: the nearest double, ties to even, as an exact
    integer (a double of magnitude 2^53 or more is an integer); beyond the
    range of doubles Python raises [OverflowError]. *)
Definition round53 (n : Z) : Z :=
  let a := Z.abs n in
  let bits := Z.log2 a + 1 in
  if bits <=? 53 then n
  else
    let sh := bits - 53 in
    let q := Z.shiftr a sh in
    let r := a - Z.shiftl q sh in
    let half := Z.shiftl 1 (sh - 1) in
    let q' := if (half <? r) || ((r =? half) && Z.odd q) then q + 1 else q in
    Z.sgn n * Z.shiftl q' sh.

Definition int_to_float (n : Z) : result Z :=
  let f := round53 n in
  if Z.abs f <? 2 ^ 1024 then Ok f
  else Raise (OverflowError "int too large to convert to float").

(** The value of [size_bytes]: an int on entry, a float after the first
    division.  [PyFloat m k] is the double [m / 1024^k]; dividing a double
    by 1024.0 only lowers its exponent, so it is exact. *)
Inductive number : Type :=
| PyInt (n : Z)
| PyFloat (m : Z) (k : nat).

(** [x < 1024.0]; Python compares an int with a float exactly. *)
Definition lt_1024 (x : number) : bool :=
  match x with
  | PyInt n => n <? 1024
  | PyFloat m k => m <? 1024 * 1024 ^ Z.of_nat k
  end.

(** [x /= 1024.0] *)
Definition div_1024 (x : number) : result number :=
  match x with
  | PyInt n => let? f := int_to_float n in Ok (PyFloat f 1)
  | PyFloat m k => Ok (PyFloat m (S k))
  end.

(** [a / d] rounded to the nearest integer, ties to even, for [0 <= a], [0 < d]. *)
Definition round_half_even (a d : Z) : Z :=
  let q := a / d in
  let r := a mod d in
  if (d <? 2 * r) || ((2 * r =? d) && Z.odd q) then q + 1 else q.

(** The text of a count of tenths: [15] is [1.5]. *)
Definition tenths_text (neg : bool) (t : Z) : string :=
  (if neg then "-" else "") +:+ pretty (t / 10) +:+ "." +:+ pretty (t mod 10).

(** The tenths that [f"{x:.1f}"] shows for the double [m / 1024^k]. *)
Definition tenths (m : Z) (k : nat) : Z :=
  round_half_even (10 * Z.abs m) (1024 ^ Z.of_nat k).

(** [f"{x:.1f}"]: correctly rounded to one decimal place. *)
Definition format_1f (x : number) : result string :=
  match x with
  | PyInt n => let? f := int_to_float n in Ok (tenths_text (f <? 0) (tenths f 0))
  | PyFloat m k => Ok (tenths_text (m <? 0) (tenths m k))
  end.

End Num.

Fixpoint format_size_loop (units : list string) (size_bytes : Num.number)
  : result string :=
  match units with
  | [] => let? s := Num.format_1f size_bytes in Ok (s +:+ " PB")
  | unit :: units' =>
      if Num.lt_1024 size_bytes
      then let? s := Num.format_1f size_bytes in Ok (s +:+ " " +:+ unit)
      else let? x := Num.div_1024 size_bytes in format_size_loop units' x
  end.

Definition _format_size (size_bytes : Z) : result string :=
  format_size_loop ["B"; "KB"; "MB"; "GB"; "TB"] (Num.PyInt size_bytes).

(** ** The file system *)

Module FS.

Local Open Scope Z_scope.

Abbreviation bytes := (list Byte.byte).

(** What [os.stat] reports, apart from the size. *)
Record stat_result : Type := mkStat {
  st_mode : Z; st_uid : Z; st_gid : Z;
  st_atime : Z; st_mtime : Z; st_ctime : Z }.

Inductive node : Type :=
| File (data : bytes) (meta : stat_result)
| Dir (meta : stat_result).

Definition meta_of (n : node) : stat_result :=
  match n with File _ m => m | Dir m => m end.

(** The state the tools run in: the tree as a finite map from resolved
    paths to nodes (the root is the empty path), the working directory,
    the time of the call, and the identity of the process. *)
Record world : Type := mkWorld {
  files : gmap (list string) node;
  cwd : rpath;
  clock : Z;
  umask : Z;
  uid : Z;
  gid : Z }.

Definition with_files (w : world) (fs : gmap (list string) node) : world :=
  {| files := fs; cwd := cwd w; clock := clock w;
     umask := umask w; uid := uid w; gid := gid w |}.


Definition S_IFREG : Z := 32768.   (* 0o100000 *)
Definition S_IFDIR : Z := 16384.   (* 0o040000 *)

(** [stat.S_IMODE] *)
Definition S_IMODE (mode : Z) : Z := Z.land mode 4095.  (* 0o7777 *)

Definition new_meta (w : world) (kind perms : Z) : stat_result :=
  {| st_mode := Z.lor kind (Z.land perms (Z.lnot (umask w)));
     st_uid := uid w; st_gid := gid w;
     st_atime := clock w; st_mtime := clock w; st_ctime := clock w |}.

Definition touched (w : world) (m : stat_result) : stat_result :=
  {| st_mode := st_mode m; st_uid := st_uid m; st_gid := st_gid m;
     st_atime := st_atime m; st_mtime := clock w; st_ctime := clock w |}.

(** ** Computations that read and change the world and may raise *)

Definition io (A : Type) : Type := world -> result A * world.

Definition ret {A : Type} (a : A) : io A := fun w => (Ok a, w).
Definition raise {A : Type} (e : exn) : io A := fun w => (Raise e, w).
Definition lift {A : Type} (r : result A) : io A := fun w => (r, w).
Definition io_bind {A B : Type} (m : io A) (k : A -> io B) : io B :=
  fun w => match m w with
           | (Ok a, w') => k a w'
           | (Raise e, w') => (Raise e, w')
           end.

End FS.
Import FS.

Notation "'let*' x ':=' m 'in' k" := (io_bind m (fun x => k))
  (at level 10, x name, m at level 100, k at level 200).
Notation "m ';;' k" := (io_bind m (fun _ => k))
  (at level 100, k at level 200, right associativity).

(** ** The operating system's calls *)

Module OS.

Definition quote (p : rpath) : string := "'" +:+ str p +:+ "'".

Definition ENOENT (p : rpath) : exn :=
  FileNotFoundError ("[Errno 2] No such file or directory: " +:+ quote p).
Definition EEXIST (p : rpath) : exn :=
  FileExistsError ("[Errno 17] File exists: " +:+ quote p).
Definition ENOTDIR (p : rpath) : exn :=
  NotADirectoryError ("[Errno 20] Not a directory: " +:+ quote p).
Definition EISDIR (p : rpath) : exn :=
  IsADirectoryError ("[Errno 21] Is a directory: " +:+ quote p).
Definition ENOTEMPTY (p : rpath) : exn :=
  OSError ("[Errno 39] Directory not empty: " +:+ quote p).
Definition EINVAL (p q : rpath) : exn :=
  OSError ("[Errno 22] Invalid argument: " +:+ quote p +:+ " -> " +:+ quote q).

(** [Path.exists], [Path.is_file], [Path.is_dir]: they never raise. *)
Definition exists_ (p : rpath) (w : world) : bool :=
  match files w !! p with Some _ => true | None => false end.
Definition is_file (p : rpath) (w : world) : bool :=
  match files w !! p with Some (File _ _) => true | _ => false end.
Definition is_dir (p : rpath) (w : world) : bool :=
  match files w !! p with Some (Dir _) => true | _ => false end.

(** The entries of a directory: the paths one component below it. *)
Definition is_child (d k : rpath) : Prop := k <> [] /\ parent k = d.

Global Instance is_child_dec (d k : rpath) : Decision (is_child d k).
Proof. unfold is_child. apply _. Defined.

Definition entries (d : rpath) (w : world) : list (list string * node) :=
  map_to_list (filter (fun kv => is_child d kv.1) (files w)).

(** An entry can only be created in an existing directory. *)
Definition check_parent (p : rpath) (w : world) : option exn :=
  match files w !! parent p with
  | Some (Dir _) => None
  | Some (File _ _) => Some (ENOTDIR p)
  | None => Some (ENOENT p)
  end.

(** [os.stat] *)
Definition stat (p : rpath) : io node :=
  fun w => match files w !! p with
           | Some n => (Ok n, w)
           | None => (Raise (ENOENT p), w)
           end.

(** Opening a file for reading, and reading all of it. *)
Definition read_bytes (p : rpath) : io bytes :=
  fun w => match files w !! p with
           | Some (File d _) => (Ok d, w)
           | Some (Dir _) => (Raise (EISDIR p), w)
           | None => (Raise (ENOENT p), w)
           end.

(** Opening a file for writing creates it, or empties it. *)
Definition open_w (p : rpath) : io unit :=
  fun w => match files w !! p with
           | Some (Dir _) => (Raise (EISDIR p), w)
           | Some (File _ m) =>
               (Ok tt, with_files w (<[p := File [] (touched w m)]> (files w)))
           | None =>
               match check_parent p w with
               | Some e => (Raise e, w)
               | None =>
                   (Ok tt, with_files w
                      (<[p := File [] (new_meta w S_IFREG 438)]> (files w)))
               end
           end.

(** Writing to a file that [open_w] has opened, and closing it. *)
Definition store (p : rpath) (d : bytes) : io unit :=
  fun w => match files w !! p with
           | Some (File _ m) =>
               (Ok tt, with_files w (<[p := File d (touched w m)]> (files w)))
           | _ => (Raise (OSError "[Errno 9] Bad file descriptor"), w)
           end.

(** [os.unlink] *)
Definition unlink (p : rpath) : io unit :=
  fun w => match files w !! p with
           | Some (File _ _) => (Ok tt, with_files w (delete p (files w)))
           | Some (Dir _) => (Raise (EISDIR p), w)
           | None => (Raise (ENOENT p), w)
           end.

(** [os.mkdir] with the default mode 0o777. *)
Definition mkdir (p : rpath) : io unit :=
  fun w => match files w !! p with
           | Some _ => (Raise (EEXIST p), w)
           | None =>
               match check_parent p w with
               | Some e => (Raise e, w)
               | None =>
                   (Ok tt, with_files w
                      (<[p := Dir (new_meta w S_IFDIR 511)]> (files w)))
               end
           end.

(** [os.rmdir]: only an empty directory goes. *)
Definition rmdir (p : rpath) : io unit :=
  fun w => match files w !! p with
           | None => (Raise (ENOENT p), w)
           | Some (File _ _) => (Raise (ENOTDIR p), w)
           | Some (Dir _) =>
               match entries p w with
               | [] => (Ok tt, with_files w (delete p (files w)))
               | _ :: _ => (Raise (ENOTEMPTY p), w)
               end
           end.

(** The part of the tree at and below [p], and the rest. *)
Definition subtree (p : rpath) (fs : gmap (list string) node) : gmap (list string) node :=
  filter (fun kv => p `prefix_of` kv.1) fs.
Definition outside (p : rpath) (fs : gmap (list string) node) : gmap (list string) node :=
  filter (fun kv => ~ p `prefix_of` kv.1) fs.

(** The subtree at [src], with every path re-rooted at [dst]. *)
Definition rebase (src dst k : rpath) : rpath := dst ++ drop (length src) k.
Definition rebased (src dst : rpath) (f : node -> node)
    (fs : gmap (list string) node) : gmap (list string) node :=
  list_to_map ((fun kv => (rebase src dst kv.1, f kv.2)) <$> map_to_list (subtree src fs)).

(** [os.rename] *)
Definition rename (src dst : rpath) : io unit :=
  fun w =>
    let fs := files w in
    let moved := (Ok tt, with_files w (rebased src dst id fs ∪ outside src fs)) in
    match fs !! src with
    | None => (Raise (ENOENT src), w)
    | Some n =>
        if decide (src = dst) then (Ok tt, w)
        else match n, fs !! dst with
             | File _ _, Some (Dir _) => (Raise (EISDIR dst), w)
             | File _ _, Some (File _ _) => moved
             | Dir _, Some (File _ _) => (Raise (ENOTDIR dst), w)
             | Dir _, Some (Dir _) =>
                 if decide (src `prefix_of` dst) then (Raise (EINVAL src dst), w)
                 else match entries dst w with
                      | [] => moved
                      | _ :: _ => (Raise (ENOTEMPTY dst), w)
                      end
             | _, None =>
                 match check_parent dst w with
                 | Some e => (Raise e, w)
                 | None =>
                     match n with
                     | Dir _ =>
                         if decide (src `prefix_of` dst)
                         then (Raise (EINVAL src dst), w) else moved
                     | File _ _ => moved
                     end
                 end
             end
    end.

End OS.

(** ** [Path.mkdir] and [shutil] *)

Module Lib.

(** [Path.mkdir(parents=False, exist_ok)]: one [os.mkdir]; an existing
    directory is accepted when [exist_ok] is set. *)
Definition mkdir_once (p : rpath) (exist_ok : bool) : io unit :=
  fun w => match OS.mkdir p w with
           | (Ok tt, w') => (Ok tt, w')
           | (Raise (FileNotFoundError m), _) => (Raise (FileNotFoundError m), w)
           | (Raise e, _) =>
               if is_OSError e && exist_ok && OS.is_dir p w
               then (Ok tt, w) else (Raise e, w)
           end.

(** [Path.mkdir(parents, exist_ok)] on the path whose components, innermost
    first, are [rp]: when the parent is missing and [parents] is set, the
    parent is made first (with [parents=True, exist_ok=True]) and the
    directory is tried again. *)
Fixpoint mkdir_rev (rp : list string) (parents exist_ok : bool) : io unit :=
  fun w =>
    let p := List.rev rp in
    match OS.mkdir p w with
    | (Ok tt, w') => (Ok tt, w')
    | (Raise (FileNotFoundError m), _) =>
        match rp with
        | [] => (Raise (FileNotFoundError m), w)
        | _ :: rp' =>
            if parents
            then (mkdir_rev rp' true true ;; mkdir_once p exist_ok) w
            else (Raise (FileNotFoundError m), w)
        end
    | (Raise e, _) =>
        if is_OSError e && exist_ok && OS.is_dir p w
        then (Ok tt, w) else (Raise e, w)
    end.

Definition mkdir (p : rpath) (parents exist_ok : bool) : io unit :=
  mkdir_rev (List.rev p) parents exist_ok.

(** [os.path.join(dst, os.path.basename(src))]; only the root has an empty
    base name, and joining it leaves [dst]. *)
Definition join_name (dst : rpath) (n : string) : rpath :=
  match n with
  | EmptyString => dst
  | _ => dst ++ [n]
  end.

(** [shutil.rmtree] of a directory: it goes with everything below it. *)
Definition rmtree (p : rpath) : io unit :=
  fun w => match files w !! p with
           | None => (Raise (OS.ENOENT p), w)
           | Some (File _ _) => (Raise (OS.ENOTDIR p), w)
           | Some (Dir _) => (Ok tt, with_files w (OS.outside p (files w)))
           end.

(** [shutil.copystat]: the permission bits and the access and modification
    times of the source are put on the target. *)
Definition copied_meta (w : world) (src dst : stat_result) : stat_result :=
  {| st_mode := Z.lor (Z.land (st_mode dst) (Z.lnot 4095)) (S_IMODE (st_mode src));
     st_uid := st_uid dst; st_gid := st_gid dst;
     st_atime := st_atime src; st_mtime := st_mtime src; st_ctime := clock w |}.

Definition copystat (src dst : rpath) : io unit :=
  let* s := OS.stat src in
  let* d := OS.stat dst in
  fun w =>
    let m := copied_meta w (meta_of s) (meta_of d) in
    let d' := match d with File b _ => File b m | Dir _ => Dir m end in
    (Ok tt, with_files w (<[dst := d']> (files w))).

(** [shutil.copyfile] *)
Definition copyfile (src dst : rpath) : io unit :=
  if decide (src = dst)
  then raise (ShutilError (OS.quote src +:+ " and " +:+ OS.quote dst
                           +:+ " are the same file"))
  else
    let* data := OS.read_bytes src in
    OS.open_w dst ;;
    OS.store dst data.

(** [shutil.copy2]: a directory as target receives the file under the
    source's name. *)
Definition copy2 (src dst : rpath) : io rpath :=
  let* dst_is_dir := (fun w => (Ok (OS.is_dir dst w), w)) in
  let real_dst := if dst_is_dir : bool then join_name dst (name src) else dst in
  copyfile src real_dst ;;
  copystat src real_dst ;;
  ret real_dst.

(** [shutil.copytree] with [copy2]: the target must not exist; its missing
    parents are made. *)
Definition copy_node (w : world) (n : node) : node :=
  match n with
  | File b m => File b (copied_meta w m (new_meta w S_IFREG 438))
  | Dir m => Dir (copied_meta w m (new_meta w S_IFDIR 511))
  end.

Definition copytree (src dst : rpath) : io unit :=
  let* _ := OS.stat src in
  mkdir dst true false ;;
  fun w => (Ok tt, with_files w (OS.rebased src dst (copy_node w) (files w) ∪ files w)).

(** [shutil.move] *)
Definition move (src dst : rpath) : io unit :=
  fun w =>
    let fallback (real_dst : rpath) : io unit :=
      fun w1 => match OS.rename src real_dst w1 with
                | (Ok tt, w2) => (Ok tt, w2)
                | (Raise e, w2) =>
                    if is_OSError e then
                      if OS.is_dir src w2 then
                        if decide (src `prefix_of` dst)
                        then (Raise (ShutilError
                                ("Cannot move a directory " +:+ OS.quote src
                                 +:+ " into itself " +:+ OS.quote dst +:+ ".")), w2)
                        else (copytree src real_dst ;; rmtree src) w2
                      else (copy2 src real_dst ;; OS.unlink src) w2
                    else (Raise e, w2)
                end in
    if OS.is_dir dst w then
      if decide (src = dst) then OS.rename src dst w
      else
        let real_dst := join_name dst (name src) in
        if OS.exists_ real_dst w
        then (Raise (ShutilError ("Destination path " +:+ OS.quote real_dst
                                  +:+ " already exists")), w)
        else fallback real_dst w
    else fallback dst w.

End Lib.

(** ** JSON values and [json.dumps] *)

Module Json.

#[local] Set Warnings "-register-all".

(** A float is carried as the text that [repr] gives it. *)
Inductive json : Type :=
| JNull
| JBool (b : bool)
| JInt (n : Z)
| JFloat (repr : string)
| JStr (s : string)
| JList (items : list json)
| JDict (items : list (string * json)).

Definition dquote : ascii := "034".

Definition hex_digit (n : nat) : ascii :=
  match n with
  | 10 => "a" | 11 => "b" | 12 => "c" | 13 => "d" | 14 => "e" | 15 => "f"
  | _ => ascii_of_nat (48 + n)
  end%char.

(** [\u00XX] for a code point below 256. *)
Definition u_escape (c : ascii) : string :=
  let n := nat_of_ascii c in
  "\u00" +:+ String (hex_digit (n / 16)) (String (hex_digit (n mod 16)) "").

Definition escape_char (ensure_ascii : bool) (c : ascii) : string :=
  let n := nat_of_ascii c in
  match n with
  | 34 => String "\" (String dquote "")
  | 92 => "\\"
  | 10 => "\n"
  | 13 => "\r"
  | 9 => "\t"
  | 8 => "\b"
  | 12 => "\f"
  | _ => if (n <? 32)%nat then u_escape c
         else if ensure_ascii && (126 <? n)%nat then u_escape c
         else String c ""
  end.

Fixpoint escape (ensure_ascii : bool) (s : string) : string :=
  match s with
  | EmptyString => ""
  | String c s' => escape_char ensure_ascii c +:+ escape ensure_ascii s'
  end.

Definition quoted (ensure_ascii : bool) (s : string) : string :=
  String dquote (escape ensure_ascii s) +:+ String dquote "".

(** A line break followed by the indentation of [level], two spaces a level. *)
Definition newline_indent (level : nat) : string :=
  String "010" (Str.repeat_char " " (2 * level)).

(** [json.dumps(j, indent=2, ensure_ascii=...)] at nesting depth [level]. *)
Fixpoint dumps_at (ensure_ascii : bool) (level : nat) (j : json) : string :=
  match j with
  | JNull => "null"
  | JBool true => "true"
  | JBool false => "false"
  | JInt n => pretty n
  | JFloat r => r
  | JStr s => quoted ensure_ascii s
  | JList [] => "[]"
  | JList (x :: xs) =>
      "[" +:+ newline_indent (S level) +:+ dumps_at ensure_ascii (S level) x
      +:+ (fix rest (l : list json) : string :=
             match l with
             | [] => ""
             | y :: l' => "," +:+ newline_indent (S level)
                          +:+ dumps_at ensure_ascii (S level) y +:+ rest l'
             end) xs
      +:+ newline_indent level +:+ "]"
  | JDict [] => "{}"
  | JDict ((k, v) :: kvs) =>
      "{" +:+ newline_indent (S level) +:+ quoted ensure_ascii k +:+ ": "
      +:+ dumps_at ensure_ascii (S level) v
      +:+ (fix rest (l : list (string * json)) : string :=
             match l with
             | [] => ""
             | (k', v') :: l' => "," +:+ newline_indent (S level)
                                 +:+ quoted ensure_ascii k' +:+ ": "
                                 +:+ dumps_at ensure_ascii (S level) v' +:+ rest l'
             end) kvs
      +:+ newline_indent level +:+ "}"
  end.

Definition dumps (ensure_ascii : bool) (j : json) : string :=
  dumps_at ensure_ascii 0 j.

End Json.
Import Json.

(** ** [fnmatch] *)

Module Fnmatch.

Inductive token : Type :=
| Star
| AnyChar
| Lit (c : ascii)
| Class (negated : bool) (ranges : list (ascii * ascii)).

(** The members of a bracket expression: [a-z] is a range, any other
    character stands for itself. *)
Fixpoint class_ranges (body : list ascii) : list (ascii * ascii) :=
  match body with
  | [] => []
  | lo :: rest =>
      match rest with
      | dash :: hi :: rest' =>
          if Ascii.eqb dash "-"
          then (lo, hi) :: class_ranges rest'
          else (lo, lo) :: class_ranges rest
      | _ => (lo, lo) :: class_ranges rest
      end
  end.

(** The text up to the next closing bracket, and what follows the bracket. *)
Fixpoint to_close (s : string) : option (list ascii * string) :=
  match s with
  | EmptyString => None
  | String c s' =>
      if Ascii.eqb c "]" then Some ([], s')
      else match to_close s' with
           | Some (body, rest) => Some (c :: body, rest)
           | None => None
           end
  end.

(** A bracket expression after its opening bracket: an optional [!], then
    a closing bracket taken as a member when it comes first, then the
    members up to the closing bracket. *)
Definition bracket (s : string) : option (token * string) :=
  let (neg, s1) := match s with
                   | String "!" s' => (true, s')
                   | _ => (false, s)
                   end in
  match s1 with
  | String "]" s2 =>
      match to_close s2 with
      | Some (body, rest) => Some (Class neg (class_ranges ("]"%char :: body)), rest)
      | None => None
      end
  | _ =>
      match to_close s1 with
      | Some (body, rest) => Some (Class neg (class_ranges body), rest)
      | None => None
      end
  end.

(** [fnmatch.translate]: a bracket that is never closed is an ordinary
    character. *)
Fixpoint translate (fuel : nat) (pat : string) : list token :=
  match fuel, pat with
  | S fuel', String c pat' =>
      if Ascii.eqb c "*" then Star :: translate fuel' pat'
      else if Ascii.eqb c "?" then AnyChar :: translate fuel' pat'
      else if Ascii.eqb c "[" then
        match bracket pat' with
        | Some (t, rest) => t :: translate fuel' rest
        | None => Lit c :: translate fuel' pat'
        end
      else Lit c :: translate fuel' pat'
  | _, _ => []
  end.

Definition in_range (c : ascii) (r : ascii * ascii) : bool :=
  (nat_of_ascii r.1 <=? nat_of_ascii c)%nat && (nat_of_ascii c <=? nat_of_ascii r.2)%nat.

Definition token_matches (t : token) (c : ascii) : bool :=
  match t with
  | Star | AnyChar => true
  | Lit a => Ascii.eqb a c
  | Class neg ranges => xorb neg (existsb (in_range c) ranges)
  end.

Fixpoint matches (toks : list token) (s : string) {struct toks} : bool :=
  match toks with
  | [] => match s with EmptyString => true | _ => false end
  | Star :: toks' =>
      (fix star (s : string) : bool :=
         matches toks' s ||
         match s with
         | EmptyString => false
         | String _ s' => star s'
         end) s
  | t :: toks' =>
      match s with
      | EmptyString => false
      | String c s' => token_matches t c && matches toks' s'
      end
  end.

(** [fnmatch.fnmatch(name, pat)] where [os.path.normcase] changes nothing. *)
Definition fnmatch (name pat : string) : bool :=
  matches (translate (String.length pat) pat) name.

End Fnmatch.

(** ** What the tools take from Python's libraries and the platform *)

(** A text encoding, as [codecs.lookup] returns it. *)
Record codec : Type := mkCodec {
  encode : string -> result bytes;
  decode : bytes -> result string }.

(** [os.linesep] *)
Inductive linesep : Type := LF | CRLF.

Class Externals : Type := {
  (** [codecs.lookup]: [None] for a name that no codec has. *)
  codecs_lookup : string -> option codec;
  os_linesep : linesep;
  (** [json.loads] *)
  json_loads : string -> result json;
  (** [glob.glob(pattern, recursive=...)], as the paths it finds. *)
  glob_glob : world -> string -> bool -> list (list string);
  (** [datetime.fromtimestamp(t).strftime("%Y-%m-%d %H:%M:%S")] and
      [datetime.fromtimestamp(t).isoformat()], in the local time zone. *)
  strftime_local : Z -> result string;
  isoformat_local : Z -> result string;
  (** The size that [os.stat] reports for a directory. *)
  dir_st_size : Z }.

(** ** Text files *)

Module TextIO.

Definition CR : ascii := "013".
Definition NL : ascii := "010".

(** Reading in text mode turns [\r\n] and a lone [\r] into [\n]. *)
Fixpoint universal_newlines (s : string) : string :=
  match s with
  | EmptyString => EmptyString
  | String c s' =>
      if Ascii.eqb c CR then
        match s' with
        | String c2 s'' =>
            if Ascii.eqb c2 NL then String NL (universal_newlines s'')
            else String NL (universal_newlines s')
        | EmptyString => String NL EmptyString
        end
      else String c (universal_newlines s')
  end.

(** Writing in text mode turns [\n] into the platform's line separator. *)
Fixpoint translate_newlines (sep : linesep) (s : string) : string :=
  match s with
  | EmptyString => EmptyString
  | String c s' =>
      if Ascii.eqb c NL then
        match sep with
        | LF => String NL (translate_newlines sep s')
        | CRLF => String CR (String NL (translate_newlines sep s'))
        end
      else String c (translate_newlines sep s')
  end.

Section WithExternals.
Context `{Externals}.

Definition lookup_codec (encoding : string) : io codec :=
  match codecs_lookup encoding with
  | Some c => ret c
  | None => raise (LookupError ("unknown encoding: " +:+ encoding))
  end.

(** [with open(p, 'r', encoding=...) as f: f.read()] *)
Definition read_text (p : rpath) (encoding : string) : io string :=
  let* data := OS.read_bytes p in
  let* c := lookup_codec encoding in
  let* s := lift (decode c data) in
  ret (universal_newlines s).

(** [with open(p, 'w', encoding=...) as f: f.write(content)]: the file is
    created or emptied before the encoding is looked up. *)
Definition write_text (p : rpath) (encoding content : string) : io unit :=
  OS.open_w p ;;
  let* c := lookup_codec encoding in
  let* b := lift (encode c (translate_newlines os_linesep content)) in
  OS.store p b.

End WithExternals.

End TextIO.

(** ** The registered tools *)

(** [oct(n)] *)
Fixpoint oct_digits (fuel : nat) (n : Z) (acc : string) : string :=
  match fuel with
  | O => acc
  | S fuel' =>
      let acc' := String (ascii_of_nat (48 + Z.to_nat (n mod 8))) acc in
      if (n <? 8)%Z then acc' else oct_digits fuel' (n / 8) acc'
  end.

Definition oct (n : Z) : string :=
  (if (n <? 0)%Z then "-0o" else "0o")
  +:+ oct_digits (S (Z.to_nat (Z.log2 (Z.abs n)))) (Z.abs n) "".

(** [sorted] on strings: ascending by code points. *)
Definition sorted (l : list string) : list string := merge_sort String.le l.

(** A tool runs its body inside [try] and turns an exception into text. *)
Definition tool : Type := world -> string * world.

Definition try_except (body : io string) (handler : exn -> string) : tool :=
  fun w => match body w with
           | (Ok s, w') => (s, w')
           | (Raise e, w') => (handler e, w')
           end.

Definition get {A : Type} (f : world -> A) : io A := fun w => (Ok (f w), w).

(** [safe_path(path)], with no base directory, as every tool calls it. *)
Definition resolved (path : string) : io rpath :=
  fun w => (safe_path (cwd w) path None, w).

Section Tools.
Context `{Externals}.

Definition st_size (n : node) : Z :=
  match n with
  | File d _ => Z.of_nat (length d)
  | Dir _ => dir_st_size
  end.

Definition read_file_body (file_path encoding : string) : io string :=
     let* path := resolved file_path in
     let* present := get (OS.exists_ path) in
     if negb present then ret ("Error: File '" +:+ file_path +:+ "' does not exist")
     else
       let* regular := get (OS.is_file path) in
       if negb regular then ret ("Error: '" +:+ file_path +:+ "' is not a file")
       else TextIO.read_text path encoding.

Definition read_file (file_path encoding : string) : tool :=
  try_except (read_file_body file_path encoding)
    (fun e => "Error reading file: " +:+ str_exn e).

Definition write_file_body (file_path content encoding : string) (create_dirs : bool) : io string :=
     let* path := resolved file_path in
     (if create_dirs then Lib.mkdir (parent path) true true else ret tt) ;;
     TextIO.write_text path encoding content ;;
     ret ("Successfully wrote " +:+ pretty (String.length content)
          +:+ " characters to '" +:+ file_path +:+ "'").

Definition write_file (file_path content encoding : string) (create_dirs : bool) : tool :=
  try_except (write_file_body file_path content encoding create_dirs)
    (fun e => "Error writing file: " +:+ str_exn e).

Definition delete_file_body (file_path : string) : io string :=
     let* path := resolved file_path in
     let* present := get (OS.exists_ path) in
     if negb present then ret ("Error: File '" +:+ file_path +:+ "' does not exist")
     else
       let* regular := get (OS.is_file path) in
       if negb regular then ret ("Error: '" +:+ file_path +:+ "' is not a file")
       else
         OS.unlink path ;;
         ret ("Successfully deleted file '" +:+ file_path +:+ "'").

Definition delete_file (file_path : string) : tool :=
  try_except (delete_file_body file_path)
    (fun e => "Error deleting file: " +:+ str_exn e).

(** The line of one entry of a listing. *)
Definition listing_line (detailed : bool) (item : rpath) (n : node) : result string :=
  let item_is_dir := match n with Dir _ => true | File _ _ => false end in
  if detailed then
    let size := st_size n in
    let? modified := strftime_local (st_mtime (meta_of n)) in
    let is_dir := if item_is_dir then "DIR" else "FILE" in
    let permissions := oct (S_IMODE (st_mode (meta_of n))) in
    Ok (Str.ljust 4 is_dir +:+ " " +:+ Str.rjust 10 (pretty size) +:+ " "
        +:+ Str.rjust 6 permissions +:+ " " +:+ modified +:+ " " +:+ name item)
  else
    Ok ((if item_is_dir then "[DIR]" else "[FILE]") +:+ " " +:+ name item).

(** The loop over [path.iterdir()]. *)
Fixpoint listing_items (include_hidden detailed : bool)
    (entries : list (list string * node)) : result (list string) :=
  match entries with
  | [] => Ok []
  | (item, n) :: rest =>
      if negb include_hidden && Str.startswith "." (name item)
      then listing_items include_hidden detailed rest
      else
        let? line := listing_line detailed item n in
        let? lines := listing_items include_hidden detailed rest in
        Ok (line :: lines)
  end.

Definition list_directory_body (dir_path : string) (include_hidden detailed : bool) : io string :=
     let* path := resolved dir_path in
     let* present := get (OS.exists_ path) in
     if negb present then ret ("Error: Directory '" +:+ dir_path +:+ "' does not exist")
     else
       let* directory := get (OS.is_dir path) in
       if negb directory then ret ("Error: '" +:+ dir_path +:+ "' is not a directory")
       else
         let* entries := get (OS.entries path) in
         let* items := lift (listing_items include_hidden detailed entries) in
         match items with
         | [] => ret ("Directory '" +:+ dir_path +:+ "' is empty")
         | _ =>
             let header :=
               if detailed
               then "TYPE       SIZE  PERMS       MODIFIED           NAME"
               else "CONTENTS" in
             ret ("Directory listing for '" +:+ dir_path +:+ "':" +:+ String TextIO.NL header
                  +:+ String TextIO.NL (Str.join (String TextIO.NL "") (sorted items)))
         end.

Definition list_directory (dir_path : string) (include_hidden detailed : bool) : tool :=
  try_except (list_directory_body dir_path include_hidden detailed)
    (fun e => "Error listing directory: " +:+ str_exn e).

Definition create_directory_body (dir_path : string) (parents : bool) : io string :=
     let* path := resolved dir_path in
     let* present := get (OS.exists_ path) in
     if present then ret ("Error: Directory '" +:+ dir_path +:+ "' already exists")
     else
       Lib.mkdir path parents false ;;
       ret ("Successfully created directory '" +:+ dir_path +:+ "'").

Definition create_directory (dir_path : string) (parents : bool) : tool :=
  try_except (create_directory_body dir_path parents)
    (fun e => "Error creating directory: " +:+ str_exn e).

Definition delete_directory_body (dir_path : string) (recursive : bool) : io string :=
     let* path := resolved dir_path in
     let* present := get (OS.exists_ path) in
     if negb present then ret ("Error: Directory '" +:+ dir_path +:+ "' does not exist")
     else
       let* directory := get (OS.is_dir path) in
       if negb directory then ret ("Error: '" +:+ dir_path +:+ "' is not a directory")
       else if recursive then
         Lib.rmtree path ;;
         ret ("Successfully deleted directory '" +:+ dir_path +:+ "' and all its contents")
       else
         OS.rmdir path ;;
         ret ("Successfully deleted empty directory '" +:+ dir_path +:+ "'").

Definition delete_directory (dir_path : string) (recursive : bool) : tool :=
  try_except (delete_directory_body dir_path recursive)
    (fun e => "Error deleting directory: " +:+ str_exn e).

(** [os.walk(base)]: each directory at or below [base] with the names of
    its entries that are not directories. *)
Definition is_dir_node (n : node) : bool :=
  match n with Dir _ => true | File _ _ => false end.

Definition walk (base : rpath) (w : world) : list (list string * list string) :=
  (fun kv => (kv.1, (fun e => name e.1)
                      <$> List.filter (fun e => negb (is_dir_node e.2)) (OS.entries kv.1 w)))
  <$> map_to_list (filter (fun kv => base `prefix_of` kv.1 /\ is_dir_node kv.2 = true)
                          (files w)).

(** [os.listdir] *)
Definition listdir (d : rpath) (w : world) : list string :=
  (fun e => name e.1) <$> OS.entries d w.

(** The test of the case-insensitive search on one file name. *)
Definition name_matches (pattern file : string) : bool :=
  Str.contains (Str.lower pattern) (Str.lower file)
  || Fnmatch.fnmatch (Str.lower file) (Str.lower pattern).

Definition search_files_body (pattern directory : string) (recursive case_sensitive : bool) : io string :=
     let* base_path := resolved directory in
     let* present := get (OS.exists_ base_path) in
     if negb present then ret ("Error: Directory '" +:+ directory +:+ "' does not exist")
     else
       let* is_directory := get (OS.is_dir base_path) in
       if negb is_directory then ret ("Error: '" +:+ directory +:+ "' is not a directory")
       else
         let search_pattern :=
           if recursive
           then str_pure (joinpure (joinpath base_path "**") pattern)
           else str_pure (joinpath base_path pattern) in
         let* globbed := get (fun w => glob_glob w search_pattern recursive) in
         let* matches :=
           if negb case_sensitive then
             let* walked :=
               get (fun w => if recursive then walk base_path w
                             else [(base_path, listdir base_path w)]) in
             ret (flat_map
                    (fun '(root, files) =>
                       (fun file => root ++ [file])
                       <$> List.filter (name_matches pattern) files)
                    walked)
           else ret globbed in
         match matches with
         | [] => ret ("No files found matching pattern '" +:+ pattern +:+ "' in '"
                      +:+ directory +:+ "'")
         | _ =>
             let relative_matches := (fun m => relpath m base_path) <$> matches in
             ret ("Found " +:+ pretty (length matches) +:+ " files matching '"
                  +:+ pattern +:+ "':"
                  +:+ String TextIO.NL (Str.join (String TextIO.NL "") (sorted relative_matches)))
         end.

Definition search_files (pattern directory : string) (recursive case_sensitive : bool) : tool :=
  try_except (search_files_body pattern directory recursive case_sensitive)
    (fun e => "Error searching files: " +:+ str_exn e).

Definition get_file_info_body (file_path : string) : io string :=
     let* path := resolved file_path in
     let* present := get (OS.exists_ path) in
     if negb present then ret ("Error: '" +:+ file_path +:+ "' does not exist")
     else
       let* n := OS.stat path in
       let m := meta_of n in
       let* size_human := lift (_format_size (st_size n)) in
       let* created := lift (isoformat_local (st_ctime m)) in
       let* modified := lift (isoformat_local (st_mtime m)) in
       let* accessed := lift (isoformat_local (st_atime m)) in
       let info :=
         [("path", JStr (str path));
          ("name", JStr (name path));
          ("type", JStr (if is_dir_node n then "directory" else "file"));
          ("size", JInt (st_size n));
          ("size_human", JStr size_human);
          ("permissions", JStr (oct (S_IMODE (st_mode m))));
          ("owner_uid", JInt (st_uid m));
          ("group_gid", JInt (st_gid m));
          ("created", JStr created);
          ("modified", JStr modified);
          ("accessed", JStr accessed)] in
       let info :=
         if is_dir_node n then info else info ++ [("extension", JStr (suffix path))] in
       ret (Json.dumps true (JDict info)).

Definition get_file_info (file_path : string) : tool :=
  try_except (get_file_info_body file_path)
    (fun e => "Error getting file info: " +:+ str_exn e).

Definition copy_file_body (source_path destination_path : string) (overwrite : bool) : io string :=
     let* src := resolved source_path in
     let* dst := resolved destination_path in
     let* src_present := get (OS.exists_ src) in
     if negb src_present
     then ret ("Error: Source file '" +:+ source_path +:+ "' does not exist")
     else
       let* src_regular := get (OS.is_file src) in
       if negb src_regular
       then ret ("Error: Source '" +:+ source_path +:+ "' is not a file")
       else
         let* dst_present := get (OS.exists_ dst) in
         if dst_present && negb overwrite
         then ret ("Error: Destination '" +:+ destination_path
                   +:+ "' already exists. Use overwrite=True to replace it")
         else
           Lib.mkdir (parent dst) true true ;;
           let* _ := Lib.copy2 src dst in
           ret ("Successfully copied '" +:+ source_path +:+ "' to '"
                +:+ destination_path +:+ "'").

Definition copy_file (source_path destination_path : string) (overwrite : bool) : tool :=
  try_except (copy_file_body source_path destination_path overwrite)
    (fun e => "Error copying file: " +:+ str_exn e).

Definition move_file_body (source_path destination_path : string) (overwrite : bool) : io string :=
     let* src := resolved source_path in
     let* dst := resolved destination_path in
     let* src_present := get (OS.exists_ src) in
     if negb src_present
     then ret ("Error: Source '" +:+ source_path +:+ "' does not exist")
     else
       let* dst_present := get (OS.exists_ dst) in
       if dst_present && negb overwrite
       then ret ("Error: Destination '" +:+ destination_path
                 +:+ "' already exists. Use overwrite=True to replace it")
       else
         Lib.mkdir (parent dst) true true ;;
         Lib.move src dst ;;
         ret ("Successfully moved '" +:+ source_path +:+ "' to '"
              +:+ destination_path +:+ "'").

Definition move_file (source_path destination_path : string) (overwrite : bool) : tool :=
  try_except (move_file_body source_path destination_path overwrite)
    (fun e => "Error moving file: " +:+ str_exn e).

(** The handlers of the two JSON tools: a [JSONDecodeError] has its own text. *)
Definition json_handler (filepath what : string) (e : exn) : string :=
  match e with
  | JSONDecodeError m => "Error: Invalid JSON in file '" +:+ filepath +:+ "': " +:+ m
  | _ => "Error " +:+ what +:+ " JSON file: " +:+ str_exn e
  end.

Definition format_json_file_body (filepath : string) : io string :=
     let* path := resolved filepath in
     let* present := get (OS.exists_ path) in
     if negb present then ret ("Error: File '" +:+ filepath +:+ "' does not exist")
     else
       let* regular := get (OS.is_file path) in
       if negb regular then ret ("Error: '" +:+ filepath +:+ "' is not a file")
       else
         let* text := TextIO.read_text path "utf-8" in
         let* data := lift (json_loads text) in
         TextIO.write_text path "utf-8" (Json.dumps false data) ;;
         ret ("Successfully formatted JSON file '" +:+ filepath +:+ "'").

Definition format_json_file (filepath : string) : tool :=
  try_except (format_json_file_body filepath)
    (json_handler filepath "formatting").

Definition validate_json_file_body (filepath : string) : io string :=
     let* path := resolved filepath in
     let* present := get (OS.exists_ path) in
     if negb present then ret ("Error: File '" +:+ filepath +:+ "' does not exist")
     else
       let* regular := get (OS.is_file path) in
       if negb regular then ret ("Error: '" +:+ filepath +:+ "' is not a file")
       else
         let* text := TextIO.read_text path "utf-8" in
         let* _ := lift (json_loads text) in
         ret ("JSON file '" +:+ filepath +:+ "' is valid").

Definition validate_json_file (filepath : string) : tool :=
  try_except (validate_json_file_body filepath)
    (json_handler filepath "validating").

End Tools.

(** ** The dispatcher's view: one call of a registered tool *)

Inductive call : Type :=
| ReadFile (file_path encoding : string)
| WriteFile (file_path content encoding : string) (create_dirs : bool)
| DeleteFile (file_path : string)
| ListDirectory (dir_path : string) (include_hidden detailed : bool)
| CreateDirectory (dir_path : string) (parents : bool)
| DeleteDirectory (dir_path : string) (recursive : bool)
| SearchFiles (pattern directory : string) (recursive case_sensitive : bool)
| GetFileInfo (file_path : string)
| CopyFile (source_path destination_path : string) (overwrite : bool)
| MoveFile (source_path destination_path : string) (overwrite : bool)
| FormatJsonFile (filepath : string)
| ValidateJsonFile (filepath : string).

Section Dispatch.
Context `{Externals}.

Definition invoke (c : call) : tool :=
  match c with
  | ReadFile p e => read_file p e
  | WriteFile p c e d => write_file p c e d
  | DeleteFile p => delete_file p
  | ListDirectory p h d => list_directory p h d
  | CreateDirectory p ps => create_directory p ps
  | DeleteDirectory p r => delete_directory p r
  | SearchFiles pat d r cs => search_files pat d r cs
  | GetFileInfo p => get_file_info p
  | CopyFile s d o => copy_file s d o
  | MoveFile s d o => move_file s d o
  | FormatJsonFile p => format_json_file p
  | ValidateJsonFile p => validate_json_file p
  end.

(** What stands inside the [try] of each tool. *)
Definition body_of (c : call) : io string :=
  match c with
  | ReadFile p e => read_file_body p e
  | WriteFile p c e d => write_file_body p c e d
  | DeleteFile p => delete_file_body p
  | ListDirectory p h d => list_directory_body p h d
  | CreateDirectory p ps => create_directory_body p ps
  | DeleteDirectory p r => delete_directory_body p r
  | SearchFiles pat d r cs => search_files_body pat d r cs
  | GetFileInfo p => get_file_info_body p
  | CopyFile s d o => copy_file_body s d o
  | MoveFile s d o => move_file_body s d o
  | FormatJsonFile p => format_json_file_body p
  | ValidateJsonFile p => validate_json_file_body p
  end.

End Dispatch.

(** What a tool asks of the path it works on, before it does anything. *)
Inductive expected : Type := Anything | RegularFile | Directory.

Definition requires (c : call) : option (string * expected) :=
  match c with
  | ReadFile p _ => Some (p, RegularFile)
  | WriteFile _ _ _ _ => None
  | DeleteFile p => Some (p, RegularFile)
  | ListDirectory p _ _ => Some (p, Directory)
  | CreateDirectory _ _ => None
  | DeleteDirectory p _ => Some (p, Directory)
  | SearchFiles _ d _ _ => Some (d, Directory)
  | GetFileInfo p => Some (p, Anything)
  | CopyFile s _ _ => Some (s, RegularFile)
  | MoveFile s _ _ => Some (s, Anything)
  | FormatJsonFile p => Some (p, RegularFile)
  | ValidateJsonFile p => Some (p, RegularFile)
  end.

Definition meets (e : expected) (n : option node) : bool :=
  match e, n with
  | Anything, Some _ => true
  | RegularFile, Some (File _ _) => true
  | Directory, Some (Dir _) => true
  | _, _ => false
  end.

(** The words a tool puts before the text of an exception it has caught. *)
Definition failure_prefix (c : call) (e : exn) : string :=
  match c with
  | ReadFile _ _ => "Error reading file: "
  | WriteFile _ _ _ _ => "Error writing file: "
  | DeleteFile _ => "Error deleting file: "
  | ListDirectory _ _ _ => "Error listing directory: "
  | CreateDirectory _ _ => "Error creating directory: "
  | DeleteDirectory _ _ => "Error deleting directory: "
  | SearchFiles _ _ _ _ => "Error searching files: "
  | GetFileInfo _ => "Error getting file info: "
  | CopyFile _ _ _ => "Error copying file: "
  | MoveFile _ _ _ => "Error moving file: "
  | FormatJsonFile p =>
      match e with
      | JSONDecodeError _ => "Error: Invalid JSON in file '" +:+ p +:+ "': "
      | _ => "Error formatting JSON file: "
      end
  | ValidateJsonFile p =>
      match e with
      | JSONDecodeError _ => "Error: Invalid JSON in file '" +:+ p +:+ "': "
      | _ => "Error validating JSON file: "
      end
  end.

(** What a plain listing shows of an entry, and which entries it shows. *)
Definition plain_line (e : list string * node) : string :=
  (if is_dir_node e.2 then "[DIR]" else "[FILE]") +:+ " " +:+ name e.1.

Definition visible (include_hidden : bool) (e : list string * node) : bool :=
  include_hidden || negb (Str.startswith "." (name e.1)).

(** The two lines above the entries of a listing. *)
Definition listing_head (dir_path : string) (detailed : bool) : string :=
  "Directory listing for '" +:+ dir_path +:+ "':"
  +:+ String TextIO.NL
        (if detailed
         then "TYPE       SIZE  PERMS       MODIFIED           NAME"
         else "CONTENTS").

(** What [search_files] answers once it has its [matches]. *)
Definition search_report (pattern directory : string) (base : rpath)
    (matches : list (list string)) : string :=
  match matches with
  | [] => "No files found matching pattern '" +:+ pattern +:+ "' in '" +:+ directory +:+ "'"
  | _ =>
      "Found " +:+ pretty (length matches) +:+ " files matching '" +:+ pattern +:+ "':"
      +:+ String TextIO.NL
            (Str.join (String TextIO.NL "") (sorted ((fun m => relpath m base) <$> matches)))
  end.

(** What the search that ignores case finds: below [base], at any depth,
    the entries that are regular files; or, when it does not descend, every
    entry of [base]; in both cases with a name that, in lower case, holds
    the pattern in lower case or matches it as a glob. *)
Definition found_ignoring_case (w : world) (base : rpath) (pattern : string)
    (recursive : bool) (k : rpath) : Prop :=
  k <> [] /\ name_matches pattern (name k) = true
  /\ if recursive
     then base `prefix_of` parent k /\ OS.is_dir (parent k) w = true
          /\ OS.is_file k w = true
     else parent k = base /\ OS.exists_ k w = true.

(** ** One concrete platform, to run the tools on *)

Module Sample.

Definition to_bytes (s : string) : bytes := list_byte_of_string s.
Definition of_bytes (b : bytes) : string := string_of_list_byte b.

Definition all_below (bound : nat) (s : string) : bool :=
  forallb (fun c => (nat_of_ascii c <? bound)%nat) (list_ascii_of_string s).

(** [latin-1]: one byte per code point. *)
Definition latin1 : codec :=
  {| encode := fun s => Ok (to_bytes s);
     decode := fun b => Ok (of_bytes b) |}.

(** [ascii]: the code points below 128 only. *)
Definition ascii7 : codec :=
  {| encode := fun s =>
       if all_below 128 s then Ok (to_bytes s)
       else Raise (UnicodeError "'ascii' codec can't encode characters: ordinal not in range(128)");
     decode := fun b =>
       if all_below 128 (of_bytes b) then Ok (of_bytes b)
       else Raise (UnicodeError "'ascii' codec can't decode bytes: ordinal not in range(128)") |}.

(** [utf-8] on the code points of the model: one byte below 128, two
    bytes from 128 to 255. *)
Fixpoint utf8_encode (s : string) : string :=
  match s with
  | EmptyString => EmptyString
  | String c s' =>
      let n := nat_of_ascii c in
      if (n <? 128)%nat then String c (utf8_encode s')
      else String (ascii_of_nat (192 + n / 64))
             (String (ascii_of_nat (128 + n mod 64)) (utf8_encode s'))
  end.

Fixpoint utf8_decode (s : string) : option string :=
  match s with
  | EmptyString => Some EmptyString
  | String c s' =>
      let n := nat_of_ascii c in
      if (n <? 128)%nat then String c <$> utf8_decode s'
      else if (n =? 194)%nat || (n =? 195)%nat then
        match s' with
        | String c2 s'' =>
            let n2 := nat_of_ascii c2 in
            if (128 <=? n2)%nat && (n2 <? 192)%nat
            then String (ascii_of_nat ((n - 192) * 64 + (n2 - 128))) <$> utf8_decode s''
            else None
        | EmptyString => None
        end
      else None
  end.

Definition utf8 : codec :=
  {| encode := fun s => Ok (to_bytes (utf8_encode s));
     decode := fun b =>
       match utf8_decode (of_bytes b) with
       | Some s => Ok s
       | None => Raise (UnicodeError "'utf-8' codec can't decode bytes")
       end |}.

Definition lookup (encoding : string) : option codec :=
  let e := Str.lower encoding in
  if String.eqb e "utf-8" || String.eqb e "utf8" then Some utf8
  else if String.eqb e "latin-1" || String.eqb e "latin1" || String.eqb e "iso-8859-1"
  then Some latin1
  else if String.eqb e "ascii" || String.eqb e "us-ascii" then Some ascii7
  else None.

(** *** A JSON reader for documents without floats *)

Definition is_ws (c : ascii) : bool :=
  let n := nat_of_ascii c in
  (n =? 32)%nat || (n =? 9)%nat || (n =? 10)%nat || (n =? 13)%nat.

Fixpoint skip_ws (s : string) : string :=
  match s with
  | String c s' => if is_ws c then skip_ws s' else s
  | EmptyString => s
  end.

Definition is_digit (c : ascii) : bool :=
  let n := nat_of_ascii c in (48 <=? n)%nat && (n <=? 57)%nat.

(** The digits that open [s], as a number, and what follows them. *)
Fixpoint digits (acc : Z) (s : string) : Z * string :=
  match s with
  | String c s' =>
      if is_digit c then digits (10 * acc + Z.of_nat (nat_of_ascii c - 48)) s'
      else (acc, s)
  | EmptyString => (acc, s)
  end.

(** The inside of a string literal up to its closing quote. *)
Fixpoint string_body (s : string) : option (string * string) :=
  match s with
  | EmptyString => None
  | String c s' =>
      if Ascii.eqb c Json.dquote then Some (EmptyString, s')
      else if Ascii.eqb c "\" then
        match s' with
        | String e s'' =>
            let plain (x : ascii) :=
              match string_body s'' with
              | Some (body, rest) => Some (String x body, rest)
              | None => None
              end in
            if Ascii.eqb e "n" then plain "010"%char
            else if Ascii.eqb e "r" then plain "013"%char
            else if Ascii.eqb e "t" then plain "009"%char
            else if Ascii.eqb e "b" then plain "008"%char
            else if Ascii.eqb e "f" then plain "012"%char
            else if Ascii.eqb e "\" || Ascii.eqb e "/" || Ascii.eqb e Json.dquote
            then plain e
            else None
        | EmptyString => None
        end
      else if (nat_of_ascii c <? 32)%nat then None
      else match string_body s' with
           | Some (body, rest) => Some (String c body, rest)
           | None => None
           end
  end.

Definition literal (word : string) (v : json) (s : string) : option (json * string) :=
  if Str.startswith word s
  then Some (v, String.substring (String.length word) (String.length s) s)
  else None.

(** One value at the head of [s] and what follows it; [fuel] bounds the
    number of values and separators read. *)
Fixpoint value (fuel : nat) (s : string) : option (json * string) :=
  match fuel with
  | O => None
  | S fuel' =>
      let items :=
        fix items (n : nat) (s : string) : option (list json * string) :=
          match n with
          | O => None
          | S n' =>
              match value fuel' s with
              | Some (v, rest) =>
                  match skip_ws rest with
                  | String "," rest' =>
                      match items n' rest' with
                      | Some (vs, rest'') => Some (v :: vs, rest'')
                      | None => None
                      end
                  | String "]" rest' => Some ([v], rest')
                  | _ => None
                  end
              | None => None
              end
          end in
      let members :=
        fix members (n : nat) (s : string) : option (list (string * json) * string) :=
          match n with
          | O => None
          | S n' =>
              match skip_ws s with
              | String q s1 =>
                  if Ascii.eqb q Json.dquote then
                    match string_body s1 with
                    | Some (k, s2) =>
                        match skip_ws s2 with
                        | String ":" s3 =>
                            match value fuel' s3 with
                            | Some (v, rest) =>
                                match skip_ws rest with
                                | String "," rest' =>
                                    match members n' rest' with
                                    | Some (kvs, rest'') => Some ((k, v) :: kvs, rest'')
                                    | None => None
                                    end
                                | String "}" rest' => Some ([(k, v)], rest')
                                | _ => None
                                end
                            | None => None
                            end
                        | _ => None
                        end
                    | None => None
                    end
                  else None
              | EmptyString => None
              end
          end in
      match skip_ws s with
      | String c s' =>
          if Ascii.eqb c "n" then literal "null" JNull (String c s')
          else if Ascii.eqb c "t" then literal "true" (JBool true) (String c s')
          else if Ascii.eqb c "f" then literal "false" (JBool false) (String c s')
          else if Ascii.eqb c Json.dquote then
            match string_body s' with
            | Some (body, rest) => Some (JStr body, rest)
            | None => None
            end
          else if Ascii.eqb c "-" then
            match s' with
            | String d _ =>
                if is_digit d
                then let (n, rest) := digits 0 s' in Some (JInt (- n), rest)
                else None
            | EmptyString => None
            end
          else if is_digit c then
            let (n, rest) := digits 0 (String c s') in Some (JInt n, rest)
          else if Ascii.eqb c "[" then
            match skip_ws s' with
            | String "]" rest => Some (JList [], rest)
            | _ =>
                match items fuel' s' with
                | Some (vs, rest) => Some (JList vs, rest)
                | None => None
                end
            end
          else if Ascii.eqb c "{" then
            match skip_ws s' with
            | String "}" rest => Some (JDict [], rest)
            | _ =>
                match members fuel' s' with
                | Some (kvs, rest) => Some (JDict kvs, rest)
                | None => None
                end
            end
          else None
      | EmptyString => None
      end
  end.

Definition loads (s : string) : result json :=
  match value (S (String.length s)) s with
  | Some (v, rest) =>
      match skip_ws rest with
      | EmptyString => Ok v
      | _ => Raise (JSONDecodeError "Extra data")
      end
  | None => Raise (JSONDecodeError "Expecting value")
  end.

(** *** [glob] on the tree: [**] spans directories when [recursive] is set,
    and a name that starts with a dot needs a pattern that does. *)
Definition component_matches (pat c : string) : bool :=
  Fnmatch.fnmatch c pat && (negb (Str.startswith "." c) || Str.startswith "." pat).

Fixpoint glob_parts (recursive : bool) (pats key : list string) {struct pats} : bool :=
  match pats with
  | [] => match key with [] => true | _ => false end
  | pat :: pats' =>
      if recursive && String.eqb pat "**" then
        (fix skip (key : list string) : bool :=
           glob_parts recursive pats' key ||
           match key with
           | [] => false
           | c :: key' => negb (Str.startswith "." c) && skip key'
           end) key
      else
        match key with
        | [] => false
        | c :: key' => component_matches pat c && glob_parts recursive pats' key'
        end
  end.

Definition glob (w : world) (pattern : string) (recursive : bool) : list (list string) :=
  (map_to_list (filter (fun kv => glob_parts recursive (parts (Path pattern)) kv.1 = true)
                       (files w))).*1.

(** A time stamp is shown as its number of seconds. *)
Definition show_time (t : Z) : result string := Ok ("@" +:+ pretty t).

Definition platform (sep : linesep) : Externals :=
  {| codecs_lookup := lookup;
     os_linesep := sep;
     json_loads := loads;
     glob_glob := glob;
     strftime_local := show_time;
     isoformat_local := show_time;
     dir_st_size := 4096 |}.

(** A small tree: [/srv/app] holds [a.txt], [notes.md] and [sub/b.txt]. *)
Definition meta0 (mode : Z) : stat_result :=
  {| st_mode := mode; st_uid := 1000; st_gid := 1000;
     st_atime := 100; st_mtime := 100; st_ctime := 100 |}.
Definition dir0 : node := Dir (meta0 16877).
Definition file0 (text : string) : node := File (to_bytes text) (meta0 33188).

Definition tree : gmap (list string) node :=
  list_to_map
    [([], dir0); (["srv"], dir0); (["srv"; "app"], dir0);
     (["srv"; "app"; "a.txt"], file0 "alpha");
     (["srv"; "app"; "notes.md"], file0 "beta");
     (["srv"; "app"; "sub"], dir0);
     (["srv"; "app"; "sub"; "b.txt"], file0 "gamma")].

Definition world0 : world :=
  {| files := tree; cwd := ["srv"; "app"]; clock := 200;
     umask := 18; uid := 1000; gid := 1000 |}.




End Sample.

(** ** The properties as the specification words them *)


(** The units of the size formatting, smallest first. *)
Definition unit_name (k : nat) : string :=
  nth k ["B"; "KB"; "MB"; "GB"; "TB"; "PB"] "PB".

(** The text [out] shows [n] bytes in one of the six units, scaled by powers
    of 1024, with one decimal place, and the value shown is below 1024. *)
Definition renders_below_1024 (n : Z) (out : string) : Prop :=
  exists (k : nat) (t : Z),
    (k <= 5)%nat /\ t = Num.round_half_even (10 * n) (1024 ^ Z.of_nat k)
    /\ (t < 10240)%Z
    /\ out = Num.tenths_text false t +:+ " " +:+ unit_name k.


(** ** Further properties: the words they use *)

(** A component as the resolver leaves it: not empty, not a dot or two dots,
    free of the separator and of NUL. *)
Definition clean (c : string) : bool :=
  negb (String.eqb c "") && negb (String.eqb c ".") && negb (String.eqb c "..")
  && negb (Str.has_char "/" c) && negb (Str.has_char NUL c).

Definition canonical (p : rpath) : bool := forallb clean p.

(** [target] stands beside [base], under a name that the name of [base] begins. *)
Definition sibling_extension (base target : rpath) : Prop :=
  exists (q : rpath) (n n' : string) (r : rpath),
    base = q ++ [n] /\ target = q ++ n' :: r
    /\ n <> n' /\ Str.startswith n n' = true.




(** What a successful [mkdir] leaves: a directory at the path, and every
    entry that was there. *)
Definition made (p : rpath) (w w' : world) : Prop :=
  OS.is_dir p w' = true /\ forall k n, files w !! k = Some n -> files w' !! k = Some n.
(** * Properties *)

Section PathFacts.


Lemma append_assoc (a b c : string) : (a +:+ b) +:+ c = a +:+ (b +:+ c).
Proof.
  induction a as [|x a IH]; [reflexivity|].
  change (String x ((a +:+ b) +:+ c) = String x (a +:+ (b +:+ c))). by rewrite IH.
Qed.



Lemma join_cons_app (x : string) (l : list string) :
  l <> [] -> Str.join "/" (x :: l) = x +:+ "/" +:+ Str.join "/" l.
Proof. destruct l; [congruence | reflexivity]. Qed.



End PathFacts.

(** ** C1: the path resolver *)

(** A path that climbs out of [/srv/app] into its sibling [/srv/app2] is
    accepted: the check compares texts, and the text of the sibling starts
    with the text of the base. *)
Example safe_path_accepts_sibling :
  safe_path ["home"; "u"] "../app2/x" (Some "/srv/app") = Ok ["srv"; "app2"; "x"].
Proof. reflexivity. Qed.

Example safe_path_rejects_outside :
  safe_path ["home"; "u"] "../../etc/passwd" (Some "/srv/app")
  = Raise (ValueError "Path ../../etc/passwd is outside the allowed directory").
Proof. reflexivity. Qed.




(** ** C7: size formatting *)

Section FormatSize.

Local Open Scope Z_scope.

Lemma round53_small (n : Z) : 0 <= n < 2 ^ 53 -> Num.round53 n = n.
Proof.
  intros Hn. unfold Num.round53.
  destruct (Z.leb_spec (Z.log2 (Z.abs n) + 1) 53) as [_|Hbits]; [reflexivity|].
  exfalso. rewrite Z.abs_eq in Hbits by lia.
  destruct (Z.eq_dec n 0) as [->|Hne]; [simpl in Hbits; lia|].
  assert (Z.log2 n < 53) by (apply Z.log2_lt_pow2; lia). lia.
Qed.

Lemma round53_large (n : Z) : 2 ^ 53 <= n -> 2 ^ 52 <= Num.round53 n.
Proof.
  intros Hn. unfold Num.round53.
  rewrite Z.abs_eq by lia. rewrite (Z.sgn_pos n) by lia.
  destruct (Z.leb_spec (Z.log2 n + 1) 53) as [_|Hbits]; [lia|].
  set (sh := Z.log2 n + 1 - 53) in *.
  assert (Hsh : 0 < sh) by lia.
  assert (Hq : 2 ^ 52 <= Z.shiftr n sh).
  { rewrite Z.shiftr_div_pow2 by lia.
    apply Z.div_le_lower_bound; [apply Z.pow_pos_nonneg; lia|].
    rewrite <- Z.pow_add_r by lia.
    replace (sh + 52) with (Z.log2 n) by lia.
    apply Z.log2_spec. lia. }
  assert (Hp : 1 <= 2 ^ sh) by (apply (Z.pow_le_mono_r 2 0 sh); lia).
  match goal with |- context [if ?c then _ else _] => destruct c end;
    rewrite Z.shiftl_mul_pow2 by lia; nia.
Qed.

Lemma round53_nonneg_ge (n : Z) : 0 <= n -> Z.min n (2 ^ 52) <= Num.round53 n.
Proof.
  intros Hn. destruct (Z.lt_ge_cases n (2 ^ 53)) as [Hlt|Hge].
  - rewrite round53_small by lia. lia.
  - pose proof (round53_large n Hge). lia.
Qed.

Lemma round_half_even_upper (a d b : Z) :
  0 <= a -> 0 < d -> a < b * d -> Num.round_half_even a d <= b.
Proof.
  intros Ha Hd Hlt. unfold Num.round_half_even.
  assert (a / d < b) by (apply Z.div_lt_upper_bound; lia).
  destruct (_ || _); lia.
Qed.

Lemma int_to_float_ok (n : Z) :
  0 <= n -> Num.round53 n < 2 ^ 1024 -> Num.int_to_float n = Ok (Num.round53 n).
Proof.
  intros Hn Hf. unfold Num.int_to_float.
  pose proof (round53_nonneg_ge n Hn) as Hge.
  assert (0 <= Num.round53 n) by (assert (0 < 2 ^ 52) by (apply Z.pow_pos_nonneg; lia); lia).
  rewrite Z.abs_eq by assumption.
  destruct (Z.ltb_spec (Num.round53 n) (2 ^ 1024)); [reflexivity | lia].
Qed.

(** One step of the loop on a float that is not below 1024. *)
Lemma loop_step (unit : string) (units : list string) (f : Z) (k : nat) :
  format_size_loop (unit :: units) (Num.PyFloat f k)
  = if f <? 1024 * 1024 ^ Z.of_nat k
    then Ok (Num.tenths_text (f <? 0) (Num.tenths f k) +:+ " " +:+ unit)
    else format_size_loop units (Num.PyFloat f (S k)).
Proof. reflexivity. Qed.

Lemma loop_end (f : Z) (k : nat) :
  format_size_loop [] (Num.PyFloat f k)
  = Ok (Num.tenths_text (f <? 0) (Num.tenths f k) +:+ " PB").
Proof. reflexivity. Qed.

Lemma tenths_bound (f : Z) (k : nat) :
  0 <= f -> f < 1024 * 1024 ^ Z.of_nat k -> Num.tenths f k <= 10240.
Proof.
  intros Hf Hlt. unfold Num.tenths. rewrite Z.abs_eq by lia.
  assert (0 < 1024 ^ Z.of_nat k) by (apply Z.pow_pos_nonneg; lia).
  apply round_half_even_upper; nia.
Qed.

End FormatSize.

(** C7, as stated, fails: 1048575 bytes are shown as [1024.0 KB], a value
    that is not below 1024, and no other choice of unit renders that text. *)
Lemma format_size_shows_1024 :
  _format_size 1048575 = Ok "1024.0 KB"
  /\ ~ renders_below_1024 1048575 "1024.0 KB".
Proof.
  split; [vm_compute; reflexivity|].
  intros (k & t & Hk & -> & Hlt & Hout).
  do 6 (destruct k as [|k]; [vm_compute in Hlt, Hout; first [discriminate | congruence]|]).
  lia.
Qed.

(** Closes the side conditions once the unit is chosen; [H] bounds the float. *)
Ltac unit_found H :=
  repeat split; intros;
  first [ reflexivity
        | exact H
        | apply tenths_bound; [lia | exact H]
        | lia ].

(** C7, amended: for a byte count [n >= 0] whose double [f] is finite, the
    unit is the smallest of B, KB, MB, GB, TB in which [f] scaled by powers of
    1024 is below 1024, and PB when there is none; the text is the scaled
    value rounded half to even to one decimal place, followed by a space and
    the unit.  Below PB the rounded value can reach, but not pass, 1024.0.
    1536 bytes give [1.5 KB] and 0 bytes give [0.0 B]. *)
Theorem format_size_smallest_unit :
  (forall n : Z,
     (0 <= n)%Z -> (Num.round53 n < 2 ^ 1024)%Z ->
     exists k : nat,
       (k <= 5)%nat
       /\ _format_size n
          = Ok (Num.tenths_text false (Num.tenths (Num.round53 n) k) +:+ " " +:+ unit_name k)
       /\ ((k < 5)%nat -> (Num.round53 n < 1024 * 1024 ^ Z.of_nat k)%Z
                          /\ (Num.tenths (Num.round53 n) k <= 10240)%Z)
       /\ ((0 < k)%nat -> (1024 ^ Z.of_nat k <= Num.round53 n)%Z))
  /\ _format_size 1536 = Ok "1.5 KB"
  /\ _format_size 0 = Ok "0.0 B".
Proof.
  split; [|split; vm_compute; reflexivity].
  intros n Hn Hfin.
  pose proof (round53_nonneg_ge n Hn) as Hge.
  set (f := Num.round53 n) in *.
  unfold _format_size.
  destruct (Z.ltb_spec n 1024) as [Hsmall|Hbig].
  - exists 0%nat.
    assert (Hf : f = n) by (apply round53_small; lia).
    split; [lia|]. split; [|split; [|lia]].
    + cbn [format_size_loop Num.lt_1024]. apply Z.ltb_lt in Hsmall. rewrite Hsmall.
      cbn [Num.format_1f bind]. rewrite int_to_float_ok by assumption.
      fold f. cbn [bind]. destruct (Z.ltb_spec f 0); [lia | reflexivity].
    + intros _. split; [rewrite Hf; change (1024 ^ Z.of_nat 0)%Z with 1%Z; lia|].
      apply tenths_bound; rewrite Hf; [lia | change (1024 ^ Z.of_nat 0)%Z with 1%Z; lia].
  - assert (Hf0 : (1024 <= f)%Z) by lia.
    assert (Hneg : (f <? 0)%Z = false) by (apply Z.ltb_ge; lia).
    assert (Hstart : format_size_loop ["B"; "KB"; "MB"; "GB"; "TB"] (Num.PyInt n)
                     = format_size_loop ["KB"; "MB"; "GB"; "TB"] (Num.PyFloat f 1)).
    { cbn [format_size_loop Num.lt_1024]. apply Z.ltb_ge in Hbig. rewrite Hbig.
      cbn [Num.div_1024 bind]. rewrite int_to_float_ok by assumption. reflexivity. }
    rewrite Hstart. clear Hstart.
    rewrite !loop_step, loop_end, Hneg.
    change (Z.of_nat 1) with 1%Z. change (Z.of_nat 2) with 2%Z.
    change (Z.of_nat 3) with 3%Z. change (Z.of_nat 4) with 4%Z.
    destruct (Z.ltb_spec f (1024 * 1024 ^ 1)) as [H1|H1]; [exists 1%nat; unit_found H1|].
    destruct (Z.ltb_spec f (1024 * 1024 ^ 2)) as [H2|H2]; [exists 2%nat; unit_found H2|].
    destruct (Z.ltb_spec f (1024 * 1024 ^ 3)) as [H3|H3]; [exists 3%nat; unit_found H3|].
    destruct (Z.ltb_spec f (1024 * 1024 ^ 4)) as [H4|H4]; [exists 4%nat; unit_found H4|].
    exists 5%nat. unit_found H4.
Qed.

Lemma format_size_smallest_unit_witness :
  (0 <= 1048575)%Z /\ (Num.round53 1048575 < 2 ^ 1024)%Z
  /\ exists k : nat,
       (k <= 5)%nat
       /\ _format_size 1048575
          = Ok (Num.tenths_text false (Num.tenths (Num.round53 1048575) k)
                +:+ " " +:+ unit_name k)
       /\ ((k < 5)%nat -> (Num.round53 1048575 < 1024 * 1024 ^ Z.of_nat k)%Z
                          /\ (Num.tenths (Num.round53 1048575) k <= 10240)%Z)
       /\ ((0 < k)%nat -> (1024 ^ Z.of_nat k <= Num.round53 1048575)%Z).
Proof.
  split; [lia|]. split; [vm_compute; reflexivity|].
  apply (proj1 format_size_smallest_unit); [lia | vm_compute; reflexivity].
Defined.

(** ** The file system: lookups after the calls *)

Section TreeFacts.

Implicit Types (fs : gmap (list string) node) (p k d : list string).

Lemma lookup_outside_in fs p k : p `prefix_of` k -> OS.outside p fs !! k = None.
Proof.
  intros Hpre. unfold OS.outside. apply map_lookup_filter_None. right.
  intros x _ Hn. by apply Hn.
Qed.

Lemma lookup_outside_out fs p k : ~ p `prefix_of` k -> OS.outside p fs !! k = fs !! k.
Proof.
  intros Hpre. unfold OS.outside. destruct (fs !! k) as [x|] eqn:Hk.
  - by apply map_lookup_filter_Some.
  - apply map_lookup_filter_None. by left.
Qed.

End TreeFacts.

(** ** Running a tool by hand *)

Ltac io_unfold :=
  unfold try_except, io_bind, resolved, get, ret, raise, lift,
         OS.exists_, OS.is_dir, OS.is_file, OS.rmdir, OS.stat, OS.unlink,
         OS.read_bytes, Lib.rmtree in *.

(** Unfolds the monad, reduces, and rewrites with the equations at hand. *)
Ltac io_run :=
  io_unfold;
  repeat first
    [ progress (cbn beta iota zeta delta [negb andb orb fst snd])
    | match goal with H : ?x = _ |- context [?x] => rewrite H end ].

(** ** C5: deleting a directory *)

(** C5: for a directory [d] that exists and has entries, [delete_directory]
    without [recursive] returns an error text and leaves the whole file
    system as it was; with [recursive] it reports success, and afterwards
    neither [d] nor any path below [d] exists, while every other path is
    untouched. *)
Theorem delete_directory_recursive_flag
    (w : world) (dir_path : string) (d : rpath) (m : stat_result) :
  safe_path (cwd w) dir_path None = Ok d ->
  files w !! d = Some (Dir m) ->
  OS.entries d w <> [] ->
  delete_directory dir_path false w
  = ("Error deleting directory: " +:+ str_exn (OS.ENOTEMPTY d), w)
  /\ exists w',
       delete_directory dir_path true w
       = ("Successfully deleted directory '" +:+ dir_path +:+ "' and all its contents", w')
       /\ (forall k, d `prefix_of` k -> files w' !! k = None)
       /\ (forall k, ~ d `prefix_of` k -> files w' !! k = files w !! k).
Proof.
  intros Hres Hdir Hne. split.
  - unfold delete_directory, delete_directory_body. io_run.
    destruct (OS.entries d w); [congruence | reflexivity].
  - eexists. split; [|split].
    + unfold delete_directory, delete_directory_body. io_run. reflexivity.
    + intros k Hk. simpl. by apply lookup_outside_in.
    + intros k Hk. simpl. by apply lookup_outside_out.
Qed.

Lemma delete_directory_recursive_flag_witness :
  safe_path (cwd Sample.world0) "sub" None = Ok ["srv"; "app"; "sub"]
  /\ files Sample.world0 !! ["srv"; "app"; "sub"] = Some Sample.dir0
  /\ OS.entries ["srv"; "app"; "sub"] Sample.world0 <> []
  /\ delete_directory "sub" false Sample.world0
     = ("Error deleting directory: " +:+ str_exn (OS.ENOTEMPTY ["srv"; "app"; "sub"]),
        Sample.world0)
  /\ exists w',
       delete_directory "sub" true Sample.world0
       = ("Successfully deleted directory '" +:+ "sub" +:+ "' and all its contents", w')
       /\ (forall k, ["srv"; "app"; "sub"] `prefix_of` k -> files w' !! k = None)
       /\ (forall k, ~ ["srv"; "app"; "sub"] `prefix_of` k ->
             files w' !! k = files Sample.world0 !! k).
Proof.
  assert (H1 : safe_path (cwd Sample.world0) "sub" None = Ok ["srv"; "app"; "sub"])
    by reflexivity.
  assert (H2 : files Sample.world0 !! ["srv"; "app"; "sub"] = Some Sample.dir0)
    by (vm_compute; reflexivity).
  assert (H3 : OS.entries ["srv"; "app"; "sub"] Sample.world0 <> [])
    by (vm_compute; discriminate).
  split; [exact H1|]. split; [exact H2|]. split; [exact H3|].
  exact (delete_directory_recursive_flag Sample.world0 "sub" _ _ H1 H2 H3).
Defined.

(** ** What a successful run went through *)

Section Inversion.


Lemma try_except_Ok (body : io string) (handler : exn -> string) (w w' : world) (s : string) :
  try_except body handler w = (s, w') ->
  (forall e, handler e <> s) ->
  body w = (Ok s, w').
Proof.
  unfold try_except. destruct (body w) as [[s0|e] w0]; intros [= <- <-] Hh.
  - reflexivity.
  - by destruct (Hh e).
Qed.

(** The calls change the tree and nothing else of the world. *)
Definition same_env (w w' : world) : Prop := w' = with_files w (files w').

Lemma same_env_refl (w : world) : same_env w w.
Proof. by destruct w. Qed.

Lemma same_env_with_files (w : world) (fs : gmap (list string) node) :
  same_env w (with_files w fs).
Proof. reflexivity. Qed.

Lemma same_env_trans (w1 w2 w3 : world) :
  same_env w1 w2 -> same_env w2 w3 -> same_env w1 w3.
Proof. unfold same_env. intros -> ->. reflexivity. Qed.

Lemma same_env_cwd (w w' : world) : same_env w w' -> cwd w' = cwd w.
Proof. by intros ->. Qed.


Lemma os_mkdir_env (p : rpath) (w w' : world) (r : result unit) :
  OS.mkdir p w = (r, w') -> same_env w w'.
Proof.
  unfold OS.mkdir. destruct (files w !! p); [intros [= <- <-]; apply same_env_refl|].
  destruct (OS.check_parent p w); intros [= <- <-];
    [apply same_env_refl | apply same_env_with_files].
Qed.

Lemma mkdir_once_env (p : rpath) (exist_ok : bool) (w w' : world) (r : result unit) :
  Lib.mkdir_once p exist_ok w = (r, w') -> same_env w w'.
Proof.
  unfold Lib.mkdir_once. destruct (OS.mkdir p w) as [[[]|e] w1] eqn:Hm.
  - intros [= <- <-]. by eapply os_mkdir_env.
  - destruct e; try destruct (_ && _); intros [= <- <-]; apply same_env_refl.
Qed.

Lemma mkdir_rev_env (rp : list string) (parents exist_ok : bool) (w w' : world)
    (r : result unit) :
  Lib.mkdir_rev rp parents exist_ok w = (r, w') -> same_env w w'.
Proof.
  revert parents exist_ok w w' r.
  induction rp as [|c rp IH]; intros parents exist_ok w w' r; simpl.
  - destruct (OS.mkdir [] w) as [[[]|e] w1] eqn:Hm.
    + intros [= <- <-]. by eapply os_mkdir_env.
    + destruct e; try destruct (_ && _); intros [= <- <-]; apply same_env_refl.
  - destruct (OS.mkdir (rev rp ++ [c]) w) as [[[]|e] w1] eqn:Hm.
    + intros [= <- <-]. by eapply os_mkdir_env.
    + destruct e; try (destruct (_ && _); intros [= <- <-]; apply same_env_refl).
      destruct parents; [|intros [= <- <-]; apply same_env_refl].
      unfold io_bind.
      destruct (Lib.mkdir_rev rp true true w) as [[[]|e'] w2] eqn:Hrec.
      * intros Hlast. eapply same_env_trans; [by eapply IH|by eapply mkdir_once_env].
      * intros [= <- <-]. by eapply IH.
Qed.

Lemma mkdir_env (p : rpath) (parents exist_ok : bool) (w w' : world) (r : result unit) :
  Lib.mkdir p parents exist_ok w = (r, w') -> same_env w w'.
Proof. apply mkdir_rev_env. Qed.



Lemma open_w_Ok (p : rpath) (w w' : world) :
  OS.open_w p w = (Ok tt, w') -> exists m, files w' !! p = Some (File [] m).
Proof.
  unfold OS.open_w. destruct (files w !! p) as [[]|].
  - intros [= <-]. eexists. apply lookup_insert_eq.
  - discriminate.
  - destruct (OS.check_parent p w); [discriminate|].
    intros [= <-]. eexists. apply lookup_insert_eq.
Qed.


End Inversion.

(** ** C3: writing a text file and reading it back *)

Section TextFacts.


Context `{Externals}.


End TextFacts.


(** An encoding that no codec has makes both calls answer with an error. *)
Example write_then_read_unknown_encoding :
  (@read_file (Sample.platform LF) "a.txt" "klingon"
     (@write_file (Sample.platform LF) "a.txt" "hi" "klingon" true Sample.world0).2).1
  = "Error reading file: unknown encoding: klingon".
Proof. vm_compute. reflexivity. Qed.


(** The sample platform's codecs decode what they encode. *)
Section SampleCodecs.




End SampleCodecs.


(** ** Making the parents of a path *)

Section Mkdir.

Lemma not_prefix_snoc (l : list string) (c : string) : ~ (l ++ [c]) `prefix_of` l.
Proof.
  intros Hpre. apply prefix_length in Hpre. rewrite length_app in Hpre. simpl in Hpre. lia.
Qed.

Lemma parent_shorter (p : rpath) : p <> [] -> length (parent p) < length p.
Proof.
  intros Hne. rewrite (app_removelast_last "" Hne) at 2.
  rewrite length_app. simpl. unfold parent. lia.
Qed.

Lemma not_prefix_parent (p : rpath) : p <> [] -> ~ p `prefix_of` parent p.
Proof.
  intros Hne Hpre. apply prefix_length in Hpre. pose proof (parent_shorter p Hne). lia.
Qed.



(** With a directory at the root and no regular file on the way,
    [mkdir(parents=True, exist_ok=True)] succeeds; it leaves a directory at
    the path, adds entries only on the way to it, and keeps what was there. *)
Lemma mkdir_rev_Ok (rp : list string) (w : world) :
  OS.is_dir [] w = true ->
  (forall k, k `prefix_of` rev rp -> OS.is_file k w = false) ->
  exists w1,
    Lib.mkdir_rev rp true true w = (Ok tt, w1)
    /\ OS.is_dir (rev rp) w1 = true
    /\ (forall k, ~ k `prefix_of` rev rp -> files w1 !! k = files w !! k)
    /\ (forall k n, files w !! k = Some n -> files w1 !! k = Some n).
Proof.
  revert w. induction rp as [|c rp IH]; intros w Hroot Hfiles.
  - exists w. simpl. unfold OS.mkdir. unfold OS.is_dir in Hroot |- *.
    destruct (files w !! (@nil string)) as [[]|] eqn:Hr; try discriminate.
    simpl. auto.
  - cbn [Lib.mkdir_rev rev]. set (p := rev rp ++ [c]).
    assert (Hpar : parent p = rev rp) by apply removelast_last.
    unfold OS.mkdir.
    destruct (files w !! p) as [n|] eqn:Hp.
    + exists w. assert (Hd : OS.is_dir p w = true).
      { specialize (Hfiles p (reflexivity _)). unfold OS.is_file, OS.is_dir in *.
        rewrite Hp in *. by destruct n. }
      simpl. rewrite Hd. auto.
    + unfold OS.check_parent. rewrite Hpar.
      destruct (files w !! rev rp) as [[]|] eqn:Hparent.
      * specialize (Hfiles (rev rp) (prefix_app_r _ _ [c] (reflexivity _))).
        unfold OS.is_file in Hfiles. by rewrite Hparent in Hfiles.
      * eexists. split; [reflexivity|]. cbn [files with_files]. split; [|split].
        -- unfold OS.is_dir. cbn [files with_files]. by rewrite lookup_insert_eq.
        -- intros k Hk. apply lookup_insert_ne. intros ->. by apply Hk.
        -- intros k n Hk. rewrite lookup_insert_ne; [done|]. intros ->. congruence.
      * destruct (IH w Hroot) as (w2 & Hrec & Hdir2 & Hother & Hkeep).
        { intros k Hk. apply Hfiles. by apply prefix_app_r. }
        cbn [OS.ENOENT]. unfold io_bind. rewrite Hrec.
        unfold Lib.mkdir_once, OS.mkdir, OS.check_parent. rewrite Hpar.
        rewrite (Hother p (not_prefix_snoc _ _)), Hp.
        unfold OS.is_dir in Hdir2.
        destruct (files w2 !! rev rp) as [[]|] eqn:Hparent2; try discriminate.
        eexists. split; [reflexivity|]. cbn [files with_files]. split; [|split].
        -- unfold OS.is_dir. cbn [files with_files]. by rewrite lookup_insert_eq.
        -- intros k Hk. rewrite lookup_insert_ne by (intros ->; by apply Hk).
           apply Hother. intros Hpre. apply Hk. by apply prefix_app_r.
        -- intros k n Hk. rewrite lookup_insert_ne by (intros ->; congruence).
           by apply Hkeep.
Qed.

Lemma mkdir_Ok (p : rpath) (w : world) :
  OS.is_dir [] w = true ->
  (forall k, k `prefix_of` p -> OS.is_file k w = false) ->
  exists w1,
    Lib.mkdir p true true w = (Ok tt, w1)
    /\ OS.is_dir p w1 = true
    /\ (forall k, ~ k `prefix_of` p -> files w1 !! k = files w !! k)
    /\ (forall k n, files w !! k = Some n -> files w1 !! k = Some n).
Proof.
  intros Hroot Hfiles. unfold Lib.mkdir.
  destruct (mkdir_rev_Ok (rev p) w Hroot) as (w1 & H1 & H2 & H3 & H4).
  - by rewrite rev_involutive.
  - rewrite rev_involutive in H2, H3. by exists w1.
Qed.

End Mkdir.

(** ** C4: copying a file *)

Section Copy.



End Copy.




(** ** C10: moving a directory *)

Section Rebase.

Implicit Types (fs : gmap (list string) node) (src dst k r : list string).

Lemma rebased_elems src dst (f : node -> node) fs k (v : node) :
  (k, v) ∈ ((fun kv : list string * node => (OS.rebase src dst kv.1, f kv.2))
            <$> map_to_list (OS.subtree src fs))
  <-> exists r n, k = dst ++ r /\ v = f n /\ fs !! (src ++ r) = Some n.
Proof.
  rewrite list_elem_of_fmap. split.
  - intros ([k0 n] & Heq & Hin). simpl in Heq. injection Heq as -> ->.
    apply elem_of_map_to_list in Hin. unfold OS.subtree in Hin.
    apply map_lookup_filter_Some in Hin as [Hk0 Hpre]. simpl in Hpre.
    destruct Hpre as [r ->]. exists r, n. unfold OS.rebase. by rewrite drop_app_length.
  - intros (r & n & -> & -> & Hn). exists (src ++ r, n). split.
    + simpl. unfold OS.rebase. by rewrite drop_app_length.
    + apply elem_of_map_to_list. unfold OS.subtree.
      apply map_lookup_filter_Some. split; [done|]. simpl. by exists r.
Qed.

Lemma lookup_rebased src dst (f : node -> node) fs r :
  OS.rebased src dst f fs !! (dst ++ r) = f <$> fs !! (src ++ r).
Proof.
  unfold OS.rebased. destruct (fs !! (src ++ r)) as [n|] eqn:Hn; simpl.
  - apply elem_of_list_to_map_1'.
    + intros y Hy. apply rebased_elems in Hy as (r' & n' & Hr & -> & Hn').
      apply app_inv_head in Hr as <-. congruence.
    + apply rebased_elems. by exists r, n.
  - apply not_elem_of_list_to_map_1. rewrite list_elem_of_fmap.
    intros ([k v] & Hk & Hin). simpl in Hk. subst k.
    apply rebased_elems in Hin as (r' & n' & Hr & _ & Hn').
    apply app_inv_head in Hr as <-. congruence.
Qed.

Lemma lookup_rebased_out src dst (f : node -> node) fs k :
  ~ dst `prefix_of` k -> OS.rebased src dst f fs !! k = None.
Proof.
  intros Hk. unfold OS.rebased. apply not_elem_of_list_to_map_1.
  rewrite list_elem_of_fmap. intros ([k' v] & Hk' & Hin). simpl in Hk'. subst k'.
  apply rebased_elems in Hin as (r & _ & -> & _). apply Hk. by exists r.
Qed.

End Rebase.

Section Move.

(** [os.rename] of a directory onto an absent path outside it, below an
    existing directory: the whole subtree changes place. *)
Lemma rename_dir_Ok (src dst : rpath) (m : stat_result) (w : world) :
  files w !! src = Some (Dir m) ->
  files w !! dst = None ->
  OS.is_dir (parent dst) w = true ->
  ~ src `prefix_of` dst ->
  OS.rename src dst w
  = (Ok tt, with_files w (OS.rebased src dst id (files w) ∪ OS.outside src (files w))).
Proof.
  intros Hsrc Hdst Hpar Hout. unfold OS.rename. rewrite Hsrc, Hdst.
  destruct (decide (src = dst)) as [->|_]; [congruence|].
  unfold OS.check_parent. unfold OS.is_dir in Hpar.
  destruct (files w !! parent dst) as [[]|]; try discriminate.
  destruct (decide (src `prefix_of` dst)); [done | reflexivity].
Qed.

Lemma moved_lookup_new (src dst r : rpath) (fs : gmap (list string) node) :
  fs !! (dst ++ r) = None ->
  (OS.rebased src dst id fs ∪ OS.outside src fs) !! (dst ++ r) = fs !! (src ++ r).
Proof.
  intros Hfree. rewrite lookup_union, lookup_rebased, option_fmap_id.
  destruct (fs !! (src ++ r)) as [n|]; [by destruct (OS.outside src fs !! (dst ++ r))|].
  destruct (decide (src `prefix_of` dst ++ r)).
  - by rewrite lookup_outside_in.
  - by rewrite lookup_outside_out, Hfree.
Qed.

Lemma moved_lookup_old (src dst k : rpath) (fs : gmap (list string) node) :
  src `prefix_of` k -> ~ dst `prefix_of` k ->
  (OS.rebased src dst id fs ∪ OS.outside src fs) !! k = None.
Proof.
  intros Hs Hd. apply lookup_union_None_2;
    [by apply lookup_rebased_out | by apply lookup_outside_in].
Qed.

End Move.

(** C10, as stated, fails: a directory moved to an absent destination inside
    itself is not relocated; [move_file] answers with an error. *)
Lemma move_file_into_itself :
  OS.is_dir ["srv"; "app"; "sub"] Sample.world0 = true
  /\ safe_path (cwd Sample.world0) "sub/x/y" None = Ok ["srv"; "app"; "sub"; "x"; "y"]
  /\ OS.exists_ ["srv"; "app"; "sub"; "x"; "y"] Sample.world0 = false
  /\ (move_file "sub" "sub/x/y" false Sample.world0).1
     = "Error moving file: Cannot move a directory '/srv/app/sub' into itself '/srv/app/sub/x/y'."
  /\ OS.is_dir ["srv"; "app"; "sub"] (move_file "sub" "sub/x/y" false Sample.world0).2 = true.
Proof. repeat split; vm_compute; reflexivity. Qed.

(** C10, amended: for a source that is an existing directory and a
    destination at and below which nothing exists, that does not lie inside
    the source and has no regular file on the way to its parent,
    [move_file] reports success, every path below the source is found at the
    same place below the destination, and nothing is left at or below the
    source; [copy_file] on the same source answers that the source is not a
    file and changes nothing. *)
Theorem move_file_accepts_directory (w : world) (source_path destination_path : string)
    (src dst : rpath) (m : stat_result) (overwrite : bool) :
  safe_path (cwd w) source_path None = Ok src ->
  safe_path (cwd w) destination_path None = Ok dst ->
  files w !! src = Some (Dir m) ->
  (forall k, dst `prefix_of` k -> files w !! k = None) ->
  ~ src `prefix_of` dst ->
  OS.is_dir [] w = true ->
  (forall k, k `prefix_of` parent dst -> OS.is_file k w = false) ->
  (exists w',
     move_file source_path destination_path overwrite w
     = ("Successfully moved '" +:+ source_path +:+ "' to '" +:+ destination_path +:+ "'", w')
     /\ (forall r, files w' !! (dst ++ r) = files w !! (src ++ r))
     /\ (forall k, src `prefix_of` k -> files w' !! k = None))
  /\ copy_file source_path destination_path overwrite w
     = ("Error: Source '" +:+ source_path +:+ "' is not a file", w).
Proof.
  intros Hs Hd Hsrc Hfree Hout Hroot Hway. split.
  - destruct (mkdir_Ok (parent dst) w Hroot Hway) as (w1 & Hmk & Hpar & Hother & Hkeep).
    assert (Hdst : files w !! dst = None) by (by apply Hfree).
    assert (Hnil : dst <> []).
    { intros ->. unfold OS.is_dir in Hroot. by rewrite Hdst in Hroot. }
    assert (Hlong : forall r, ~ (dst ++ r) `prefix_of` parent dst).
    { intros r Hpre. apply (not_prefix_parent dst Hnil).
      etrans; [|exact Hpre]. by apply prefix_app_r. }
    assert (Hdst1 : files w1 !! dst = None).
    { rewrite <- (app_nil_r dst). rewrite Hother by apply Hlong.
      by rewrite app_nil_r. }
    assert (Hnotdir1 : OS.is_dir dst w1 = false) by (unfold OS.is_dir; by rewrite Hdst1).
    pose proof (rename_dir_Ok src dst m w1 (Hkeep _ _ Hsrc) Hdst1 Hpar Hout) as Hren.
    assert (Hmove : Lib.move src dst w1
                    = (Ok tt, with_files w1 (OS.rebased src dst id (files w1)
                                             ∪ OS.outside src (files w1)))).
    { unfold Lib.move. by rewrite Hnotdir1, Hren. }
    eexists. split; [|split].
    + unfold move_file, move_file_body. io_run. reflexivity.
    + intros r. cbn [files with_files]. rewrite moved_lookup_new.
      * apply Hother. intros Hpre. apply Hout.
        etrans; [by apply prefix_app_r | etrans; [exact Hpre|]].
        exists [List.last dst ""]. unfold parent. by apply app_removelast_last.
      * rewrite Hother by apply Hlong. apply Hfree. by apply prefix_app_r.
    + intros k Hk. cbn [files with_files]. apply moved_lookup_old; [done|].
      intros Hdk. destruct (prefix_weak_total _ _ _ Hk Hdk) as [Hsd|Hds]; [done|].
      specialize (Hfree src Hds). congruence.
  - unfold copy_file, copy_file_body. io_run. reflexivity.
Qed.

Lemma move_file_accepts_directory_witness :
  safe_path (cwd Sample.world0) "sub" None = Ok ["srv"; "app"; "sub"]
  /\ safe_path (cwd Sample.world0) "moved/there" None = Ok ["srv"; "app"; "moved"; "there"]
  /\ files Sample.world0 !! ["srv"; "app"; "sub"] = Some Sample.dir0
  /\ (forall k, ["srv"; "app"; "moved"; "there"] `prefix_of` k ->
                files Sample.world0 !! k = None)
  /\ ~ ["srv"; "app"; "sub"] `prefix_of` ["srv"; "app"; "moved"; "there"]
  /\ OS.is_dir [] Sample.world0 = true
  /\ (forall k, k `prefix_of` parent ["srv"; "app"; "moved"; "there"] ->
                OS.is_file k Sample.world0 = false)
  /\ (exists w',
        move_file "sub" "moved/there" false Sample.world0
        = ("Successfully moved '" +:+ "sub" +:+ "' to '" +:+ "moved/there" +:+ "'", w')
        /\ (forall r, files w' !! (["srv"; "app"; "moved"; "there"] ++ r)
                      = files Sample.world0 !! (["srv"; "app"; "sub"] ++ r))
        /\ (forall k, ["srv"; "app"; "sub"] `prefix_of` k -> files w' !! k = None))
  /\ copy_file "sub" "moved/there" false Sample.world0
     = ("Error: Source '" +:+ "sub" +:+ "' is not a file", Sample.world0).
Proof.
  assert (H1 : safe_path (cwd Sample.world0) "sub" None = Ok ["srv"; "app"; "sub"])
    by reflexivity.
  assert (H2 : safe_path (cwd Sample.world0) "moved/there" None
               = Ok ["srv"; "app"; "moved"; "there"]) by reflexivity.
  assert (H3 : files Sample.world0 !! ["srv"; "app"; "sub"] = Some Sample.dir0)
    by (vm_compute; reflexivity).
  assert (H4 : forall k, ["srv"; "app"; "moved"; "there"] `prefix_of` k ->
                         files Sample.world0 !! k = None).
  { intros k [r ->]. cbn [files Sample.world0]. unfold Sample.tree.
    cbn [list_to_map foldr app uncurry fst snd].
    repeat (rewrite lookup_insert_ne by discriminate). apply lookup_empty. }
  assert (H5 : ~ ["srv"; "app"; "sub"] `prefix_of` ["srv"; "app"; "moved"; "there"])
    by (intros [r Hr]; discriminate).
  assert (H6 : OS.is_dir [] Sample.world0 = true) by (vm_compute; reflexivity).
  assert (H7 : forall k, k `prefix_of` parent ["srv"; "app"; "moved"; "there"] ->
                         OS.is_file k Sample.world0 = false).
  { intros k [r Hr]. simpl in Hr.
    destruct k as [|a [|b [|c [|d k]]]]; simpl in Hr; simplify_eq; vm_compute; reflexivity. }
  repeat (split; [assumption|]).
  exact (move_file_accepts_directory Sample.world0 "sub" "moved/there" _ _ _ false
           H1 H2 H3 H4 H5 H6 H7).
Defined.

(** ** C2: no exception leaves a tool *)

(** C2: every call of a registered tool, on every state of the file system,
    returns a text.  When the body of the tool runs to its end the text is
    the body's result; when anything in the body raises, the exception is
    caught by the tool itself and the text is an error message that starts
    with [Error] and ends with the text of the exception; in both cases the
    file system is as the body left it.  In particular, when the path that
    the tool works on does not exist, or is a directory where a file is
    asked for, or a file where a directory is asked for, the tool returns a
    text that starts with [Error] and changes nothing. *)
Theorem tools_catch_every_exception `{Externals} (c : call) (w : world) :
  match body_of c w with
  | (Ok s, w') => invoke c w = (s, w')
  | (Raise e, w') =>
      invoke c w = (failure_prefix c e +:+ str_exn e, w')
      /\ Str.startswith "Error" (failure_prefix c e) = true
  end
  /\ forall path e p,
       requires c = Some (path, e) ->
       safe_path (cwd w) path None = Ok p ->
       meets e (files w !! p) = false ->
       exists msg, invoke c w = (msg, w) /\ Str.startswith "Error" msg = true.
Proof.
  split.
  - destruct c; cbn [invoke body_of];
      unfold read_file, write_file, delete_file, list_directory, create_directory,
             delete_directory, search_files, get_file_info, copy_file, move_file,
             format_json_file, validate_json_file, try_except;
      match goal with |- context [match ?b w with _ => _ end] => destruct (b w) as [[s|e] w'] end;
      try reflexivity; try (split; reflexivity);
      destruct e; split; try reflexivity;
      unfold json_handler, failure_prefix; by rewrite !append_assoc.
  - intros path e p Hreq Hres Hmeets.
    destruct c; cbn [requires] in Hreq; try discriminate;
      injection Hreq as <- <-; cbn [invoke];
      unfold read_file, read_file_body, delete_file, delete_file_body,
             list_directory, list_directory_body, delete_directory, delete_directory_body,
             search_files, search_files_body, get_file_info, get_file_info_body,
             copy_file, copy_file_body, move_file, move_file_body,
             format_json_file, format_json_file_body,
             validate_json_file, validate_json_file_body;
      unfold meets in Hmeets;
      destruct (files w !! p) as [[]|] eqn:Hp; try discriminate;
      io_run;
      try (eexists; split; reflexivity);
      match goal with
      | |- context [safe_path ?a ?b None] =>
          destruct (safe_path a b None); io_run; eexists; split; reflexivity
      end.
Qed.

Lemma tools_catch_every_exception_witness :
  requires (DeleteDirectory "a.txt" true) = Some ("a.txt", Directory)
  /\ safe_path (cwd Sample.world0) "a.txt" None = Ok ["srv"; "app"; "a.txt"]
  /\ meets Directory (files Sample.world0 !! ["srv"; "app"; "a.txt"]) = false
  /\ exists msg,
       @invoke (Sample.platform LF) (DeleteDirectory "a.txt" true) Sample.world0
       = (msg, Sample.world0)
       /\ Str.startswith "Error" msg = true.
Proof.
  assert (H1 : requires (DeleteDirectory "a.txt" true) = Some ("a.txt", Directory))
    by reflexivity.
  assert (H2 : safe_path (cwd Sample.world0) "a.txt" None = Ok ["srv"; "app"; "a.txt"])
    by reflexivity.
  assert (H3 : meets Directory (files Sample.world0 !! ["srv"; "app"; "a.txt"]) = false)
    by (vm_compute; reflexivity).
  repeat (split; [assumption|]).
  exact (proj2 (@tools_catch_every_exception (Sample.platform LF)
                  (DeleteDirectory "a.txt" true) Sample.world0) _ _ _ H1 H2 H3).
Defined.

(** The failures that a tool finds by its own checks are texts as well. *)
Example read_file_missing :
  (@read_file (Sample.platform LF) "nowhere.txt" "utf-8" Sample.world0).1
  = "Error: File 'nowhere.txt' does not exist".
Proof. vm_compute. reflexivity. Qed.

Example read_file_on_directory :
  (@read_file (Sample.platform LF) "sub" "utf-8" Sample.world0).1
  = "Error: 'sub' is not a file".
Proof. vm_compute. reflexivity. Qed.

Example create_directory_twice :
  (create_directory "d" true (create_directory "d" true Sample.world0).2).1
  = "Error: Directory 'd' already exists".
Proof. vm_compute. reflexivity. Qed.

(** ** C8: the order of a directory listing *)

Section Listing.
Context `{Externals}.

Lemma listing_items_plain (include_hidden : bool) (es : list (list string * node)) :
  listing_items include_hidden false es
  = Ok (plain_line <$> List.filter (visible include_hidden) es).
Proof.
  induction es as [|[item n] es IH]; [reflexivity|].
  cbn [listing_items List.filter]. unfold visible at 1. cbn [fst snd].
  destruct include_hidden; cbn [negb andb orb].
  - rewrite IH. destruct n; reflexivity.
  - destruct (Str.startswith "." (name item)); cbn [negb]; [exact IH|].
    rewrite IH. destruct n; reflexivity.
Qed.

Lemma plain_line_le (e1 e2 : list string * node) :
  String.le (plain_line e1) (plain_line e2)
  <-> (is_dir_node e1.2 = true /\ is_dir_node e2.2 = false)
      \/ (is_dir_node e1.2 = is_dir_node e2.2 /\ String.le (name e1.1) (name e2.1)).
Proof.
  unfold plain_line. destruct (is_dir_node e1.2), (is_dir_node e2.2).
  - change (String.le ("[DIR]" +:+ " " +:+ name e1.1) ("[DIR]" +:+ " " +:+ name e2.1))
      with (String.le (name e1.1) (name e2.1)). intuition congruence.
  - change (String.le ("[DIR]" +:+ " " +:+ name e1.1) ("[FILE]" +:+ " " +:+ name e2.1))
      with True. intuition congruence.
  - change (String.le ("[FILE]" +:+ " " +:+ name e1.1) ("[DIR]" +:+ " " +:+ name e2.1))
      with False. intuition congruence.
  - change (String.le ("[FILE]" +:+ " " +:+ name e1.1) ("[FILE]" +:+ " " +:+ name e2.1))
      with (String.le (name e1.1) (name e2.1)). intuition congruence.
Qed.

End Listing.

(** C8, as stated, fails: the listing of [/srv/app] shows the entry [sub]
    before the entry [a.txt], and the name [sub] does not come before the
    name [a.txt]. *)
Lemma list_directory_not_by_name :
  (@list_directory (Sample.platform LF) "." false false Sample.world0).1
  = listing_head "." false
    +:+ String TextIO.NL
          (Str.join (String TextIO.NL "") ["[DIR] sub"; "[FILE] a.txt"; "[FILE] notes.md"])
  /\ ~ Sorted String.le ["sub"; "a.txt"; "notes.md"].
Proof.
  split; [vm_compute; reflexivity|].
  intros Hs. inversion Hs as [|x l _ Hhd]; subst. inversion Hhd as [|y l' Hle]; subst.
  vm_compute in Hle. exact Hle.
Qed.

(** C8, amended: for an existing directory with at least one listed entry,
    [list_directory] returns, below its two heading lines, the lines of the
    listed entries in ascending order of the whole line, for every setting
    of the two flags.  In the plain mode the lines are those of the entries
    that are not hidden (of all entries with [include_hidden]), and a line
    comes before another when it is a directory and the other is not, or
    when both are of one kind and its name comes first: directories first,
    each kind by name. *)
Theorem list_directory_sorts_lines `{Externals} (w : world) (dir_path : string)
    (d : rpath) (m : stat_result) (include_hidden detailed : bool) (items : list string) :
  safe_path (cwd w) dir_path None = Ok d ->
  files w !! d = Some (Dir m) ->
  listing_items include_hidden detailed (OS.entries d w) = Ok items ->
  items <> [] ->
  exists lines,
    list_directory dir_path include_hidden detailed w
    = (listing_head dir_path detailed
       +:+ String TextIO.NL (Str.join (String TextIO.NL "") lines), w)
    /\ lines ≡ₚ items
    /\ StronglySorted String.le lines
    /\ (detailed = false ->
        items = plain_line <$> List.filter (visible include_hidden) (OS.entries d w)
        /\ forall e1 e2,
             String.le (plain_line e1) (plain_line e2)
             <-> (is_dir_node e1.2 = true /\ is_dir_node e2.2 = false)
                 \/ (is_dir_node e1.2 = is_dir_node e2.2
                     /\ String.le (name e1.1) (name e2.1))).
Proof.
  intros Hres Hdir Hitems Hne. exists (sorted items). split; [|split; [|split]].
  - unfold list_directory, list_directory_body. io_run.
    destruct items as [|i items]; [congruence|].
    unfold listing_head. destruct detailed; cbn; by rewrite ?append_assoc.
  - apply merge_sort_Permutation.
  - apply StronglySorted_merge_sort; apply _.
  - intros ->. split; [|apply plain_line_le].
    rewrite listing_items_plain in Hitems. congruence.
Qed.

Lemma list_directory_sorts_lines_witness :
  safe_path (cwd Sample.world0) "." None = Ok ["srv"; "app"]
  /\ files Sample.world0 !! ["srv"; "app"] = Some Sample.dir0
  /\ @listing_items (Sample.platform LF) false false (OS.entries ["srv"; "app"] Sample.world0)
     = Ok (plain_line <$> List.filter (visible false) (OS.entries ["srv"; "app"] Sample.world0))
  /\ plain_line <$> List.filter (visible false) (OS.entries ["srv"; "app"] Sample.world0) <> []
  /\ exists lines,
       @list_directory (Sample.platform LF) "." false false Sample.world0
       = (listing_head "." false
          +:+ String TextIO.NL (Str.join (String TextIO.NL "") lines), Sample.world0)
       /\ lines ≡ₚ plain_line
                   <$> List.filter (visible false) (OS.entries ["srv"; "app"] Sample.world0)
       /\ StronglySorted String.le lines
       /\ (false = false ->
           plain_line <$> List.filter (visible false) (OS.entries ["srv"; "app"] Sample.world0)
           = plain_line
               <$> List.filter (visible false) (OS.entries ["srv"; "app"] Sample.world0)
           /\ forall e1 e2,
                String.le (plain_line e1) (plain_line e2)
                <-> (is_dir_node e1.2 = true /\ is_dir_node e2.2 = false)
                    \/ (is_dir_node e1.2 = is_dir_node e2.2
                        /\ String.le (name e1.1) (name e2.1))).
Proof.
  assert (H1 : safe_path (cwd Sample.world0) "." None = Ok ["srv"; "app"]) by reflexivity.
  assert (H2 : files Sample.world0 !! ["srv"; "app"] = Some Sample.dir0)
    by (vm_compute; reflexivity).
  assert (H3 : @listing_items (Sample.platform LF) false false
                 (OS.entries ["srv"; "app"] Sample.world0)
               = Ok (plain_line <$> List.filter (visible false)
                                      (OS.entries ["srv"; "app"] Sample.world0)))
    by (vm_compute; reflexivity).
  assert (H4 : plain_line <$> List.filter (visible false)
                                (OS.entries ["srv"; "app"] Sample.world0) <> [])
    by (vm_compute; discriminate).
  repeat (split; [assumption|]).
  exact (@list_directory_sorts_lines (Sample.platform LF) Sample.world0 "." _ _ false false _
           H1 H2 H3 H4).
Defined.

(** ** C9: searching for files *)

Section Search.

Lemma elem_entries (d k : rpath) (n : node) (w : world) :
  (k, n) ∈ OS.entries d w <-> files w !! k = Some n /\ k <> [] /\ parent k = d.
Proof.
  unfold OS.entries. rewrite elem_of_map_to_list, map_lookup_filter_Some.
  unfold OS.is_child. simpl. tauto.
Qed.

Lemma snoc_parent_name (k : rpath) : k <> [] -> parent k ++ [name k] = k.
Proof. intros Hne. symmetry. by apply app_removelast_last. Qed.



Lemma relparts_prefix (base r : rpath) : relparts base (base ++ r) = r.
Proof.
  induction base as [|c base IH]; simpl; [by destruct r|].
  by rewrite String.eqb_refl.
Qed.

(** The names that [os.walk] reports in one directory and then joins back. *)
Lemma elem_walk_files (base : rpath) (pattern : string) (w : world) (k : rpath) :
  k ∈ flat_map (fun '(root, files) =>
                  (fun file => root ++ [file]) <$> List.filter (name_matches pattern) files)
               (walk base w)
  <-> found_ignoring_case w base pattern true k.
Proof.
  rewrite list_elem_of_In, in_flat_map. unfold found_ignoring_case. split.
  - intros ([root names] & Hroot & Hk). cbn beta iota in Hk.
    apply list_elem_of_In in Hroot, Hk. unfold walk in Hroot.
    apply list_elem_of_fmap in Hroot as ([root' nd] & Heq & Hin). simpl in Heq.
    injection Heq as -> ->.
    apply elem_of_map_to_list, map_lookup_filter_Some in Hin as [Hd [Hpre Hisdir]].
    simpl in Hpre, Hisdir.
    apply list_elem_of_fmap in Hk as (file & -> & Hfile).
    apply list_elem_of_In, filter_In in Hfile as [Hfile Hmatch].
    apply list_elem_of_In, list_elem_of_fmap in Hfile as ([k' n'] & -> & He).
    apply list_elem_of_In, filter_In in He as [He Hnd]. simpl in Hnd.
    apply list_elem_of_In, elem_entries in He as (Hk' & Hne & Hpar). simpl in *.
    subst root'. rewrite snoc_parent_name by done.
    split; [done|]. split; [done|]. split; [done|].
    unfold OS.is_dir, OS.is_file. rewrite Hd, Hk'.
    destruct nd, n'; simpl in *; try discriminate. done.
  - intros (Hne & Hmatch & Hpre & Hdir & Hfile).
    unfold OS.is_dir in Hdir. unfold OS.is_file in Hfile.
    destruct (files w !! parent k) as [[|md]|] eqn:Hp; try discriminate.
    destruct (files w !! k) as [[data mf|]|] eqn:Hk; try discriminate.
    exists (parent k, (fun e : list string * node => name e.1)
                      <$> List.filter (fun e => negb (is_dir_node e.2))
                                      (OS.entries (parent k) w)).
    split.
    + apply list_elem_of_In. unfold walk.
      apply list_elem_of_fmap. exists (parent k, Dir md). split; [reflexivity|].
      apply elem_of_map_to_list, map_lookup_filter_Some. by split.
    + apply list_elem_of_In, list_elem_of_fmap. exists (name k).
      split; [by rewrite snoc_parent_name|].
      apply list_elem_of_In, filter_In. split; [|done].
      apply list_elem_of_In, list_elem_of_fmap. exists (k, File data mf).
      split; [reflexivity|].
      apply list_elem_of_In, filter_In. split; [|done].
      apply list_elem_of_In, elem_entries. by split.
Qed.

Lemma elem_listdir_files (base : rpath) (pattern : string) (w : world) (k : rpath) :
  k ∈ flat_map (fun '(root, files) =>
                  (fun file => root ++ [file]) <$> List.filter (name_matches pattern) files)
               [(base, listdir base w)]
  <-> found_ignoring_case w base pattern false k.
Proof.
  cbn [flat_map]. rewrite app_nil_r. unfold found_ignoring_case, listdir. split.
  - intros Hk. apply list_elem_of_fmap in Hk as (file & -> & Hfile).
    apply list_elem_of_In, filter_In in Hfile as [Hfile Hmatch].
    apply list_elem_of_In, list_elem_of_fmap in Hfile as ([k' n'] & -> & He).
    apply elem_entries in He as (Hk' & Hne & Hpar). simpl in *. subst base.
    rewrite snoc_parent_name by done.
    split; [done|]. split; [done|]. split; [done|].
    unfold OS.exists_. by rewrite Hk'.
  - intros (Hne & Hmatch & Hpar & Hex). unfold OS.exists_ in Hex.
    destruct (files w !! k) as [n|] eqn:Hk; [|discriminate].
    apply list_elem_of_fmap. exists (name k). subst base.
    split; [by rewrite snoc_parent_name|].
    apply list_elem_of_In, filter_In. split; [|done].
    apply list_elem_of_In, list_elem_of_fmap. exists (k, n). split; [reflexivity|].
    apply elem_entries. by split.
Qed.

End Search.

(** C9, as stated, fails: the search that ignores case also takes a file
    whose name merely holds the pattern.  The pattern [txt] finds [a.txt]
    and [sub/b.txt], and neither name matches [txt] as a glob, with or
    without regard to case. *)
Lemma search_files_takes_substrings :
  (@search_files (Sample.platform LF) "txt" "." true false Sample.world0).1
  = "Found 2 files matching 'txt':"
    +:+ String TextIO.NL (Str.join (String TextIO.NL "") ["a.txt"; "sub/b.txt"])
  /\ Fnmatch.fnmatch "a.txt" "txt" = false
  /\ Fnmatch.fnmatch (Str.lower "a.txt") (Str.lower "txt") = false
  /\ Fnmatch.fnmatch "b.txt" "txt" = false.
Proof. repeat split; vm_compute; reflexivity. Qed.

(** The scenario of the specification: [*.txt], searched recursively over a
    tree that holds [a.txt] and [sub/b.txt], returns both as relative paths. *)
Example search_files_scenario :
  (@search_files (Sample.platform LF) "*.txt" "." true false Sample.world0).1
  = "Found 2 files matching '*.txt':"
    +:+ String TextIO.NL (Str.join (String TextIO.NL "") ["a.txt"; "sub/b.txt"]).
Proof. vm_compute. reflexivity. Qed.

(** C9, amended: for an existing base directory.  Without regard to case,
    [search_files] finds, when it descends, the regular files at any depth
    below the base and, when it does not, every entry of the base (its
    directories too), whose lower-cased name holds the lower-cased pattern
    as a substring or matches it as a glob; with regard to case it finds
    what [glob.glob] returns for the pattern joined to the base.  It answers
    with the number of paths found and their paths relative to the base, in
    ascending order, or says that nothing was found. *)
Theorem search_files_ignoring_case `{Externals} (w : world) (pattern directory : string)
    (base : rpath) (m : stat_result) (recursive : bool) :
  safe_path (cwd w) directory None = Ok base ->
  files w !! base = Some (Dir m) ->
  (exists matches : list (list string),
     (forall k, k ∈ matches <-> found_ignoring_case w base pattern recursive k)
     /\ search_files pattern directory recursive false w
        = (search_report pattern directory base matches, w))
  /\ search_files pattern directory recursive true w
     = (search_report pattern directory base
          (glob_glob w (if recursive
                        then str_pure (joinpure (joinpath base "**") pattern)
                        else str_pure (joinpath base pattern)) recursive), w)
  /\ (forall r, relpath (base ++ r) base = match r with [] => "." | _ => Str.join "/" r end).
Proof.
  intros Hres Hdir. split; [|split].
  - destruct recursive.
    + eexists. split; [apply elem_walk_files|].
      unfold search_files, search_files_body. io_run. unfold search_report.
      match goal with |- context [flat_map ?f ?l] => destruct (flat_map f l) end;
        reflexivity.
    + eexists. split; [apply elem_listdir_files|].
      unfold search_files, search_files_body. io_run. unfold search_report.
      match goal with |- context [flat_map ?f ?l] => destruct (flat_map f l) end;
        reflexivity.
  - unfold search_files, search_files_body. io_run. unfold search_report.
    destruct (glob_glob w _ recursive); reflexivity.
  - intros r. unfold relpath. rewrite relparts_prefix. by destruct r.
Qed.

Lemma search_files_ignoring_case_witness :
  safe_path (cwd Sample.world0) "." None = Ok ["srv"; "app"]
  /\ files Sample.world0 !! ["srv"; "app"] = Some Sample.dir0
  /\ (exists matches : list (list string),
        (forall k, k ∈ matches
                   <-> found_ignoring_case Sample.world0 ["srv"; "app"] "*.txt" true k)
        /\ @search_files (Sample.platform LF) "*.txt" "." true false Sample.world0
           = (search_report "*.txt" "." ["srv"; "app"] matches, Sample.world0))
  /\ @search_files (Sample.platform LF) "*.txt" "." true true Sample.world0
     = (search_report "*.txt" "." ["srv"; "app"]
          (@glob_glob (Sample.platform LF) Sample.world0
             (if true
              then str_pure (joinpure (joinpath ["srv"; "app"] "**") "*.txt")
              else str_pure (joinpath ["srv"; "app"] "*.txt")) true), Sample.world0)
  /\ (forall r, relpath (["srv"; "app"] ++ r) ["srv"; "app"]
                = match r with [] => "." | _ => Str.join "/" r end).
Proof.
  assert (H1 : safe_path (cwd Sample.world0) "." None = Ok ["srv"; "app"]) by reflexivity.
  assert (H2 : files Sample.world0 !! ["srv"; "app"] = Some Sample.dir0)
    by (vm_compute; reflexivity).
  split; [exact H1|]. split; [exact H2|].
  exact (@search_files_ignoring_case (Sample.platform LF) Sample.world0 "*.txt" "." _ _ true
           H1 H2).
Defined.

(** ** C6: formatting a JSON file twice *)

Section FormatJson.
Context `{Externals}.

Lemma read_text_file (p : rpath) (encoding : string) (b : bytes) (m : stat_result)
    (c : codec) (s : string) (w : world) :
  files w !! p = Some (File b m) ->
  codecs_lookup encoding = Some c ->
  decode c b = Ok s ->
  TextIO.read_text p encoding w = (Ok (TextIO.universal_newlines s), w).
Proof.
  intros Hp Hc Hs. unfold TextIO.read_text, TextIO.lookup_codec. io_run. reflexivity.
Qed.



End FormatJson.



(** * Further properties of the code *)

(** ** The resolver: canonical results *)

Section Canonical.

Lemma clean_spec (c : string) :
  clean c = true
  <-> c <> "" /\ c <> "." /\ c <> ".."
      /\ Str.has_char "/" c = false /\ Str.has_char NUL c = false.
Proof.
  unfold clean. rewrite !andb_true_iff, !negb_true_iff, !String.eqb_neq. tauto.
Qed.

Lemma canonical_Forall (p : rpath) : canonical p = true <-> Forall (fun c => clean c = true) p.
Proof. unfold canonical. rewrite forallb_forall, Forall_forall. by setoid_rewrite list_elem_of_In. Qed.

Lemma split_on_no_sep (sep : ascii) (s c : string) :
  In c (Str.split_on sep s) -> Str.has_char sep c = false.
Proof.
  revert c. induction s as [|a s IH]; intros c; simpl.
  - intros [<-|[]]. reflexivity.
  - destruct (Ascii.eqb a sep) eqn:Ha.
    + intros [<-|Hin]; [reflexivity | by apply IH].
    + destruct (Str.split_on sep s) as [|w ws].
      * intros [<-|[]]. simpl. by rewrite Ha.
      * intros [<-|Hin]; [|apply IH; by right].
        simpl. rewrite Ha. apply IH. by left.
Qed.

(** What parsing leaves: no empty component, no single dot, no separator. *)
Lemma parts_Path (s c : string) :
  In c (parts (Path s)) -> c <> "" /\ c <> "." /\ Str.has_char "/" c = false.
Proof.
  unfold Path. cbn [parts]. rewrite filter_In. intros [Hin Hkeep].
  unfold keep_part in Hkeep. apply andb_true_iff in Hkeep as [H1 H2].
  apply negb_true_iff, String.eqb_neq in H1, H2.
  split; [done|]. split; [done|]. by eapply split_on_no_sep.
Qed.

Lemma collapse_Forall (Q : string -> Prop) (rstack todo : list string) :
  Forall Q rstack ->
  Forall (fun c => c = ".." \/ Q c) todo ->
  Forall Q (collapse rstack todo).
Proof.
  revert rstack. induction todo as [|c todo IH]; intros rstack Hrs Htodo; simpl.
  - rewrite Forall_forall in *. intros x Hx. apply Hrs.
    apply list_elem_of_In. apply list_elem_of_In, in_rev in Hx. done.
  - apply Forall_cons in Htodo as [Hc Htodo].
    destruct (String.eqb_spec c "..") as [->|Hne].
    + apply IH; [|done]. destruct rstack; [done|]. by apply Forall_cons in Hrs as [_ ?].
    + apply IH; [|done]. apply Forall_cons. split; [|done]. by destruct Hc.
Qed.

Lemma collapse_plain (rstack todo : list string) :
  Forall (fun c => c <> "..") todo -> collapse rstack todo = List.rev rstack ++ todo.
Proof.
  revert rstack. induction todo as [|c todo IH]; intros rstack Htodo; simpl.
  - by rewrite app_nil_r.
  - apply Forall_cons in Htodo as [Hc Htodo].
    destruct (String.eqb_spec c "..") as [->|_]; [done|].
    rewrite IH by done. simpl. by rewrite <- app_assoc.
Qed.

Lemma existsb_NUL_false (l : list string) :
  existsb (Str.has_char NUL) l = false <-> Forall (fun c => Str.has_char NUL c = false) l.
Proof.
  induction l as [|c l IH]; simpl; [by split|].
  rewrite orb_false_iff, Forall_cons. tauto.
Qed.

Lemma resolve_canonical (cwd : rpath) (p : PurePath) (r : rpath) :
  (is_absolute p = false -> canonical cwd = true) ->
  Forall (fun c => c <> "" /\ c <> "." /\ Str.has_char "/" c = false) (parts p) ->
  resolve cwd p = Ok r ->
  canonical r = true.
Proof.
  intros Hcwd Hparts. unfold resolve.
  destruct (existsb (Str.has_char NUL) (parts p)) eqn:Hnul; [discriminate|].
  intros [= <-]. apply canonical_Forall, collapse_Forall.
  - destruct (is_absolute p); [constructor|].
    rewrite Forall_forall. intros x Hx. apply list_elem_of_In, in_rev in Hx.
    specialize (Hcwd eq_refl). apply canonical_Forall in Hcwd.
    rewrite Forall_forall in Hcwd. by apply Hcwd, list_elem_of_In.
  - apply existsb_NUL_false in Hnul. rewrite Forall_forall in *.
    intros c Hc. destruct (String.eqb_spec c "..") as [|Hne]; [by left|right].
    apply clean_spec. specialize (Hparts c Hc). specialize (Hnul c Hc). tauto.
Qed.

Lemma Forall_parts_Path (s : string) :
  Forall (fun c => c <> "" /\ c <> "." /\ Str.has_char "/" c = false) (parts (Path s)).
Proof. rewrite Forall_forall. intros c Hc. apply (parts_Path s). by apply list_elem_of_In. Qed.

End Canonical.

Lemma safe_path_result_clean (cwd : rpath) (path : string) (base_path : option string)
    (p : rpath) :
  canonical cwd = true ->
  safe_path cwd path base_path = Ok p ->
  canonical p = true.
Proof.
  intros Hcwd. unfold safe_path.
  assert (Hno_base : resolve cwd (Path path) = Ok p -> canonical p = true).
  { apply resolve_canonical; [done | apply Forall_parts_Path]. }
  destruct base_path as [[|c b]|]; [done| |done].
  unfold bind. destruct (resolve cwd (Path (String c b))) as [base|] eqn:Hbase; [|discriminate].
  assert (Hcb : canonical base = true).
  { eapply resolve_canonical; [done | apply Forall_parts_Path | exact Hbase]. }
  destruct (resolve cwd (joinpath base path)) as [target|] eqn:Htarget; [|discriminate].
  destruct (negb _); [discriminate|]. intros [= <-].
  eapply resolve_canonical; [| |exact Htarget].
  - unfold joinpath, joinpure. destruct (is_absolute (Path path)) eqn:Habs; simpl; congruence.
  - unfold joinpath, joinpure. destruct (is_absolute (Path path)); cbn [parts].
    + apply Forall_parts_Path.
    + apply Forall_app. split; [|apply Forall_parts_Path].
      apply canonical_Forall in Hcb. eapply Forall_impl; [exact Hcb|].
      intros x Hx. apply clean_spec in Hx. tauto.
Qed.

(** X1: whatever [safe_path] returns, with or without a base directory, is
    in canonical form when the working directory is: no component is empty,
    a dot or two dots, and none holds a separator or NUL. *)
Theorem safe_path_canonical (cwd : rpath) (path : string) (base_path : option string)
    (p : rpath) :
  canonical cwd = true ->
  safe_path cwd path base_path = Ok p ->
  canonical p = true.
Proof. apply safe_path_result_clean. Qed.

Lemma safe_path_canonical_witness :
  canonical ["home"; "u"] = true
  /\ safe_path ["home"; "u"] "a/./b//../c.txt" (Some "data") = Ok ["home"; "u"; "data"; "a"; "c.txt"]
  /\ canonical ["home"; "u"; "data"; "a"; "c.txt"] = true.
Proof.
  assert (H1 : canonical ["home"; "u"] = true) by reflexivity.
  assert (H2 : safe_path ["home"; "u"] "a/./b//../c.txt" (Some "data")
               = Ok ["home"; "u"; "data"; "a"; "c.txt"]) by reflexivity.
  split; [exact H1|]. split; [exact H2|].
  exact (safe_path_canonical _ _ _ _ H1 H2).
Defined.

(** ** The resolver: the text of a canonical path reads back as the path *)

Section ReadBack.

Lemma split_on_plain (sep : ascii) (c : string) :
  Str.has_char sep c = false -> Str.split_on sep c = [c].
Proof.
  induction c as [|a c IH]; [reflexivity|]. simpl.
  intros Hc. apply orb_false_elim in Hc as [Ha Hc].
  rewrite Ha, (IH Hc). reflexivity.
Qed.

Lemma split_on_app (sep : ascii) (c rest : string) :
  Str.has_char sep c = false ->
  Str.split_on sep (c +:+ String sep rest) = c :: Str.split_on sep rest.
Proof.
  induction c as [|a c IH]; intros Hc.
  - simpl. by rewrite Ascii.eqb_refl.
  - simpl in Hc. apply orb_false_elim in Hc as [Ha Hc].
    change (String a c +:+ String sep rest) with (String a (c +:+ String sep rest)).
    cbn [Str.split_on]. rewrite Ha, (IH Hc). reflexivity.
Qed.

Lemma split_on_join (c : string) (l : list string) :
  Forall (fun x => Str.has_char "/" x = false) (c :: l) ->
  Str.split_on "/" (Str.join "/" (c :: l)) = c :: l.
Proof.
  revert c. induction l as [|d l IH]; intros c Hall.
  - apply Forall_cons in Hall as [Hc _]. by apply split_on_plain.
  - apply Forall_cons in Hall as [Hc Hl].
    rewrite join_cons_app by discriminate.
    change (c +:+ "/" +:+ Str.join "/" (d :: l))
      with (c +:+ String "/" (Str.join "/" (d :: l))).
    rewrite split_on_app by done. by rewrite IH.
Qed.

Lemma filter_keep_clean (p : rpath) :
  canonical p = true -> List.filter keep_part p = p.
Proof.
  induction p as [|c p IH]; [reflexivity|].
  intros Hp. cbn [canonical forallb] in Hp. apply andb_true_iff in Hp as [Hc Hp].
  apply clean_spec in Hc as (H1 & H2 & _).
  cbn [List.filter]. unfold keep_part at 1.
  apply String.eqb_neq in H1, H2. rewrite H1, H2. cbn [negb andb].
  f_equal. by apply IH.
Qed.

Lemma Path_str (p : rpath) :
  canonical p = true -> Path (str p) = {| is_absolute := true; parts := p |}.
Proof.
  intros Hp. unfold Path, str.
  change ("/" +:+ Str.join "/" p) with (String "/" (Str.join "/" p)).
  cbn [Str.startswith Str.split_on]. rewrite Ascii.eqb_refl. f_equal.
  cbn [List.filter keep_part]. simpl (negb (String.eqb "" "") && _).
  destruct p as [|c p]; [reflexivity|].
  rewrite split_on_join; [by apply filter_keep_clean|].
  apply canonical_Forall in Hp. eapply Forall_impl; [exact Hp|].
  intros x Hx. apply clean_spec in Hx. tauto.
Qed.

Lemma resolve_canonical_absolute (cwd p : rpath) :
  canonical p = true -> resolve cwd {| is_absolute := true; parts := p |} = Ok p.
Proof.
  intros Hp. unfold resolve. cbn [parts is_absolute].
  apply canonical_Forall in Hp.
  assert (Hnul : existsb (Str.has_char NUL) p = false).
  { apply existsb_NUL_false. eapply Forall_impl; [exact Hp|].
    intros x Hx. apply clean_spec in Hx. tauto. }
  rewrite Hnul. f_equal. rewrite collapse_plain; [reflexivity|].
  eapply Forall_impl; [exact Hp|]. intros x Hx. apply clean_spec in Hx. tauto.
Qed.

End ReadBack.

(** X2: resolving is idempotent.  The text of a path that [safe_path]
    returned resolves, from any working directory, to that same path. *)
Theorem safe_path_idempotent (cwd cwd' : rpath) (path : string)
    (base_path : option string) (p : rpath) :
  canonical cwd = true ->
  safe_path cwd path base_path = Ok p ->
  safe_path cwd' (str p) None = Ok p.
Proof.
  intros Hcwd Hp. pose proof (safe_path_result_clean _ _ _ _ Hcwd Hp) as Hc.
  unfold safe_path. rewrite Path_str by done. by apply resolve_canonical_absolute.
Qed.

Lemma safe_path_idempotent_witness :
  canonical ["home"; "u"] = true
  /\ safe_path ["home"; "u"] "../v/./x" None = Ok ["home"; "v"; "x"]
  /\ safe_path ["tmp"] (str ["home"; "v"; "x"]) None = Ok ["home"; "v"; "x"].
Proof.
  assert (H1 : canonical ["home"; "u"] = true) by reflexivity.
  assert (H2 : safe_path ["home"; "u"] "../v/./x" None = Ok ["home"; "v"; "x"])
    by reflexivity.
  split; [exact H1|]. split; [exact H2|].
  exact (safe_path_idempotent _ ["tmp"] _ _ _ H1 H2).
Defined.





(** ** The resolver: what the textual check lets through *)

Section Escapes.

Lemma append_nil_r (s : string) : s +:+ "" = s.
Proof.
  induction s as [|a s IH]; [reflexivity|].
  change (String a (s +:+ "") = String a s). by rewrite IH.
Qed.

Lemma startswith_name (n n' Y : string) :
  Str.has_char "/" n = false ->
  Y = "" \/ (exists Z, Y = String "/" Z) ->
  Str.startswith n (n' +:+ Y) = true ->
  Str.startswith n n' = true.
Proof.
  revert n'. induction n as [|a n IH]; intros n' Hn HY; [reflexivity|].
  cbn [Str.has_char] in Hn. apply orb_false_elim in Hn as [Ha Hn].
  destruct n' as [|a' n'].
  - change ("" +:+ Y) with Y. destruct HY as [->|[Z ->]]; [discriminate|].
    cbn [Str.startswith]. rewrite Ha. discriminate.
  - change (String a' n' +:+ Y) with (String a' (n' +:+ Y)). cbn [Str.startswith].
    intros H. apply andb_true_iff in H as [Haa H]. rewrite Haa. by apply IH.
Qed.

Lemma startswith_step (n n' J Y : string) :
  Str.has_char "/" n = false ->
  Str.has_char "/" n' = false ->
  Y = "" \/ (exists Z, Y = String "/" Z) ->
  Str.startswith (n +:+ String "/" J) (n' +:+ Y) = true ->
  n = n' /\ exists J', Y = String "/" J' /\ Str.startswith J J' = true.
Proof.
  revert n'. induction n as [|a n IH]; intros n' Hn Hn' HY.
  - change ("" +:+ String "/" J) with (String "/" J). destruct n' as [|a' n'].
    + change ("" +:+ Y) with Y. destruct HY as [->|[Z ->]]; [discriminate|].
      cbn [Str.startswith]. rewrite Ascii.eqb_refl. simpl. eauto.
    + change (String a' n' +:+ Y) with (String a' (n' +:+ Y)). cbn [Str.startswith].
      cbn [Str.has_char] in Hn'. apply orb_false_elim in Hn' as [Ha' _].
      intros H. apply andb_true_iff in H as [Haa _].
      apply Ascii.eqb_eq in Haa as <-. by rewrite Ascii.eqb_refl in Ha'.
  - cbn [Str.has_char] in Hn. apply orb_false_elim in Hn as [Ha Hn].
    change (String a n +:+ String "/" J) with (String a (n +:+ String "/" J)).
    destruct n' as [|a' n'].
    + change ("" +:+ Y) with Y. destruct HY as [->|[Z ->]]; [discriminate|].
      cbn [Str.startswith]. rewrite Ha. discriminate.
    + change (String a' n' +:+ Y) with (String a' (n' +:+ Y)). cbn [Str.startswith].
      cbn [Str.has_char] in Hn'. apply orb_false_elim in Hn' as [_ Hn'].
      intros H. apply andb_true_iff in H as [Haa H].
      apply Ascii.eqb_eq in Haa as <-.
      destruct (IH n' Hn Hn' HY H) as [-> HJ]. by split.
Qed.

(** The text after the first name of a joined path is empty or opens with
    the separator. *)
Lemma join_cons_shape (n : string) (r : list string) :
  exists Y, Str.join "/" (n :: r) = n +:+ Y
            /\ (Y = "" \/ exists Z, Y = String "/" Z)
            /\ (forall J, Y = String "/" J -> r <> [] /\ J = Str.join "/" r).
Proof.
  destruct r as [|m r].
  - exists "". split; [by rewrite append_nil_r|]. split; [by left | discriminate].
  - exists (String "/" (Str.join "/" (m :: r))). split; [reflexivity|].
    split; [right; eauto|]. intros J [= <-]. by split.
Qed.

Lemma join_prefix_inv (base target : rpath) :
  base <> [] ->
  Forall (fun c => c <> "" /\ Str.has_char "/" c = false) base ->
  Forall (fun c => Str.has_char "/" c = false) target ->
  Str.startswith (Str.join "/" base) (Str.join "/" target) = true ->
  base `prefix_of` target \/ sibling_extension base target.
Proof.
  revert target. induction base as [|n base IH]; intros target Hne Hb Ht; [done|].
  apply Forall_cons in Hb as [[Hn0 Hn] Hb].
  destruct target as [|n' r].
  - destruct base as [|m base]; cbn [Str.join String.concat].
    + destruct n; [done | discriminate].
    + destruct n; discriminate.
  - apply Forall_cons in Ht as [Hn' Hr].
    destruct (join_cons_shape n' r) as (Y & -> & HY & HYr).
    destruct base as [|m base].
    + cbn [Str.join String.concat]. intros Hs.
      apply startswith_name in Hs; [|done..].
      destruct (String.eqb_spec n n') as [<-|Hneq].
      * left. by exists r.
      * right. by exists [], n, n', r.
    + rewrite join_cons_app by discriminate.
      change (n +:+ "/" +:+ Str.join "/" (m :: base))
        with (n +:+ String "/" (Str.join "/" (m :: base))).
      intros Hs. apply startswith_step in Hs as [<- (J' & -> & Hs)]; [|done..].
      destruct (HYr J' eq_refl) as [Hrne ->].
      destruct (IH r ltac:(discriminate) Hb Hr Hs) as [[k ->]|(q & a & a' & k & Hq & -> & Hd & Hst)].
      * left. by exists k.
      * right. exists (n :: q), a, a', k. rewrite Hq. by repeat split.
Qed.

End Escapes.

(** X4: with a base directory, a path that [safe_path] accepts resolves to
    the base, to a place below the base, or to a place at or below a sibling
    of the base whose name begins with the name of the base ([/srv/app2] for
    the base [/srv/app]); nothing else passes the check. *)
Theorem safe_path_escapes_only_to_siblings (cwd : rpath) (path b : string)
    (base target : rpath) :
  canonical cwd = true ->
  b <> "" ->
  resolve cwd (Path b) = Ok base ->
  safe_path cwd path (Some b) = Ok target ->
  base `prefix_of` target \/ sibling_extension base target.
Proof.
  intros Hcwd Hb Hbase Hsafe.
  pose proof (safe_path_result_clean _ _ _ _ Hcwd Hsafe) as Hct.
  assert (Hcb : canonical base = true).
  { eapply (resolve_canonical cwd); [intros _; exact Hcwd | apply Forall_parts_Path | exact Hbase]. }
  destruct b as [|c b]; [congruence|].
  unfold safe_path, bind in Hsafe. rewrite Hbase in Hsafe.
  destruct (resolve cwd (joinpath base path)) as [t|]; [|discriminate].
  destruct (Str.startswith (str base) (str t)) eqn:Hs; [|discriminate].
  injection Hsafe as ->.
  destruct base as [|n base]; [left; by exists target|].
  apply join_prefix_inv; [discriminate| | |exact Hs].
  - apply canonical_Forall in Hcb. eapply Forall_impl; [exact Hcb|].
    intros x Hx. apply clean_spec in Hx. tauto.
  - apply canonical_Forall in Hct. eapply Forall_impl; [exact Hct|].
    intros x Hx. apply clean_spec in Hx. tauto.
Qed.

Lemma safe_path_escapes_only_to_siblings_witness :
  canonical ["home"; "u"] = true
  /\ "/srv/app" <> ""
  /\ resolve ["home"; "u"] (Path "/srv/app") = Ok ["srv"; "app"]
  /\ safe_path ["home"; "u"] "../app2/x" (Some "/srv/app") = Ok ["srv"; "app2"; "x"]
  /\ (["srv"; "app"] `prefix_of` ["srv"; "app2"; "x"]
      \/ sibling_extension ["srv"; "app"] ["srv"; "app2"; "x"]).
Proof.
  assert (H1 : canonical ["home"; "u"] = true) by reflexivity.
  assert (H2 : "/srv/app" <> "") by discriminate.
  assert (H3 : resolve ["home"; "u"] (Path "/srv/app") = Ok ["srv"; "app"]) by reflexivity.
  assert (H4 : safe_path ["home"; "u"] "../app2/x" (Some "/srv/app")
               = Ok ["srv"; "app2"; "x"]) by reflexivity.
  repeat (split; [assumption|]).
  exact (safe_path_escapes_only_to_siblings _ _ _ _ _ H1 H2 H3 H4).
Defined.

(** ** The tools that only inspect *)

Section Inert.
Context `{Externals}.









End Inert.




(** ** What no tool touches *)

Section TreeOnly.
Context `{Externals}.



















End TreeOnly.



(** ** The two JSON tools *)

(** X7: on a regular file whose text [json.loads] rejects, [format_json_file]
    and [validate_json_file] give the same answer, which names the file and
    ends with the message of the decoder, and the file system is left as it
    was: the formatter writes nothing before the text has been parsed. *)
Theorem json_tools_reject_invalid_text `{Externals} (w : world) (filepath : string)
    (p : rpath) (b : bytes) (m : stat_result) (c : codec) (s msg : string) :
  safe_path (cwd w) filepath None = Ok p ->
  files w !! p = Some (File b m) ->
  codecs_lookup "utf-8" = Some c ->
  decode c b = Ok s ->
  json_loads (TextIO.universal_newlines s) = Raise (JSONDecodeError msg) ->
  format_json_file filepath w
  = ("Error: Invalid JSON in file '" +:+ filepath +:+ "': " +:+ msg, w)
  /\ validate_json_file filepath w
     = ("Error: Invalid JSON in file '" +:+ filepath +:+ "': " +:+ msg, w).
Proof.
  intros Hres Hp Hc Hs Hbad.
  pose proof (read_text_file p "utf-8" b m c s w Hp Hc Hs) as Hread.
  split.
  - unfold format_json_file, format_json_file_body. io_run. reflexivity.
  - unfold validate_json_file, validate_json_file_body. io_run. reflexivity.
Qed.

Lemma json_tools_reject_invalid_text_witness :
  let E := Sample.platform LF in
  let p := ["srv"; "app"; "a.txt"] in
  safe_path (cwd Sample.world0) "a.txt" None = Ok p
  /\ files Sample.world0 !! p = Some (Sample.file0 "alpha")
  /\ @codecs_lookup E "utf-8" = Some Sample.utf8
  /\ decode Sample.utf8 (Sample.to_bytes "alpha") = Ok "alpha"
  /\ @json_loads E (TextIO.universal_newlines "alpha")
     = Raise (JSONDecodeError "Expecting value")
  /\ @format_json_file E "a.txt" Sample.world0
     = ("Error: Invalid JSON in file '" +:+ "a.txt" +:+ "': " +:+ "Expecting value",
        Sample.world0)
  /\ @validate_json_file E "a.txt" Sample.world0
     = ("Error: Invalid JSON in file '" +:+ "a.txt" +:+ "': " +:+ "Expecting value",
        Sample.world0).
Proof.
  intros E p.
  assert (H1 : safe_path (cwd Sample.world0) "a.txt" None = Ok p) by reflexivity.
  assert (H2 : files Sample.world0 !! p = Some (Sample.file0 "alpha"))
    by (vm_compute; reflexivity).
  assert (H3 : @codecs_lookup E "utf-8" = Some Sample.utf8) by reflexivity.
  assert (H4 : decode Sample.utf8 (Sample.to_bytes "alpha") = Ok "alpha")
    by (vm_compute; reflexivity).
  assert (H5 : @json_loads E (TextIO.universal_newlines "alpha")
               = Raise (JSONDecodeError "Expecting value")) by (vm_compute; reflexivity).
  repeat (split; [assumption|]).
  exact (@json_tools_reject_invalid_text E Sample.world0 "a.txt" p _ _ Sample.utf8 "alpha"
           "Expecting value" H1 H2 H3 H4 H5).
Defined.

(** X8: [validate_json_file] answers that the file is valid exactly when the
    path resolves to a regular file whose bytes the UTF-8 codec decodes to a
    text that [json.loads] accepts; no failure of any kind, caught or found
    by the tool's own checks, produces that answer. *)
Theorem validate_json_file_sound `{Externals} (w : world) (filepath : string) :
  (validate_json_file filepath w).1 = "JSON file '" +:+ filepath +:+ "' is valid"
  <-> exists p b m c s v,
        safe_path (cwd w) filepath None = Ok p
        /\ files w !! p = Some (File b m)
        /\ codecs_lookup "utf-8" = Some c
        /\ decode c b = Ok s
        /\ json_loads (TextIO.universal_newlines s) = Ok v.
Proof.
  split.
  - unfold validate_json_file, validate_json_file_body, TextIO.read_text,
      TextIO.lookup_codec, json_handler.
    io_run.
    destruct (safe_path (cwd w) filepath None) as [p|e] eqn:Hres;
      [|destruct e; discriminate].
    io_run. destruct (files w !! p) as [[b m|m]|] eqn:Hp; io_run; try discriminate.
    destruct (codecs_lookup "utf-8") as [c|] eqn:Hc; io_run; [|discriminate].
    destruct (decode c b) as [s|e] eqn:Hs; io_run; [|destruct e; discriminate].
    destruct (json_loads (TextIO.universal_newlines s)) as [v|e] eqn:Hv; io_run;
      [|destruct e; discriminate].
    intros _. by exists p, b, m, c, s, v.
  - intros (p & b & m & c & s & v & Hres & Hp & Hc & Hs & Hv).
    pose proof (read_text_file p "utf-8" b m c s w Hp Hc Hs) as Hread.
    unfold validate_json_file, validate_json_file_body. io_run. reflexivity.
Qed.

(** ** Creating a directory *)

Section Made.

Lemma os_mkdir_made (p : rpath) (w w' : world) :
  OS.mkdir p w = (Ok tt, w') -> made p w w'.
Proof.
  unfold OS.mkdir. destruct (files w !! p) eqn:Hp; [discriminate|].
  destruct (OS.check_parent p w); [discriminate|]. intros [= <-]. split.
  - unfold OS.is_dir. cbn [files with_files]. by rewrite lookup_insert_eq.
  - intros k n Hk. cbn [files with_files]. rewrite lookup_insert_ne; [done|].
    intros ->. congruence.
Qed.

Lemma mkdir_once_made (p : rpath) (exist_ok : bool) (w w' : world) :
  Lib.mkdir_once p exist_ok w = (Ok tt, w') -> made p w w'.
Proof.
  unfold Lib.mkdir_once. destruct (OS.mkdir p w) as [[[]|e] w1] eqn:Hm.
  - intros [= <-]. by apply os_mkdir_made.
  - destruct e; try discriminate;
      (destruct (_ && _) eqn:Hok; [|discriminate]); intros [= <-];
      apply andb_true_iff in Hok as [_ Hd]; by split.
Qed.

Lemma mkdir_rev_made (rp : list string) (parents exist_ok : bool) (w w' : world) :
  Lib.mkdir_rev rp parents exist_ok w = (Ok tt, w') -> made (rev rp) w w'.
Proof.
  revert parents exist_ok w w'.
  induction rp as [|c rp IH]; intros parents exist_ok w w'; cbn [Lib.mkdir_rev rev].
  - destruct (OS.mkdir [] w) as [[[]|e] w1] eqn:Hm.
    + intros [= <-]. by apply os_mkdir_made.
    + destruct e; try discriminate;
        (destruct (_ && _) eqn:Hok; [|discriminate]); intros [= <-];
        apply andb_true_iff in Hok as [_ Hd]; by split.
  - destruct (OS.mkdir (rev rp ++ [c]) w) as [[[]|e] w1] eqn:Hm.
    + intros [= <-]. by apply os_mkdir_made.
    + destruct e; try discriminate;
        try ((destruct (_ && _) eqn:Hok; [|discriminate]); intros [= <-];
             apply andb_true_iff in Hok as [_ Hd]; by split).
      destruct parents; [|discriminate]. unfold io_bind.
      destruct (Lib.mkdir_rev rp true true w) as [[[]|e'] w2] eqn:Hrec; [|discriminate].
      intros Hlast. apply mkdir_once_made in Hlast as [Hd Hkeep2].
      apply IH in Hrec as [_ Hkeep1]. split; [exact Hd|]. intros k n Hk. eauto.
Qed.


End Made.

(** X9: when [create_directory] reports success, the path was absent before
    and is a directory afterwards, every entry that existed is still there
    unchanged, and a second call for the same path, with either value of
    [parents], answers that the directory already exists and changes
    nothing. *)
Theorem create_directory_then_exists (w w' : world) (dir_path : string) (parents : bool) :
  create_directory dir_path parents w
  = ("Successfully created directory '" +:+ dir_path +:+ "'", w') ->
  exists p,
    safe_path (cwd w) dir_path None = Ok p
    /\ files w !! p = None
    /\ OS.is_dir p w' = true
    /\ (forall k n, files w !! k = Some n -> files w' !! k = Some n)
    /\ forall parents' : bool,
         create_directory dir_path parents' w'
         = ("Error: Directory '" +:+ dir_path +:+ "' already exists", w').
Proof.
  intros Hrun. apply try_except_Ok in Hrun; [|intros e; simpl; discriminate].
  revert Hrun. unfold create_directory_body. io_run.
  destruct (safe_path (cwd w) dir_path None) as [p|] eqn:Hres; [|discriminate].
  io_run. destruct (files w !! p) eqn:Hp; io_run; [intros [= Heq _]; discriminate|].
  destruct (Lib.mkdir p parents false w) as [[[]|e] w1] eqn:Hmk; [|discriminate].
  intros [= <-].
  pose proof (same_env_cwd _ _ (mkdir_env _ _ _ _ _ _ Hmk)) as Hcwd.
  apply mkdir_rev_made in Hmk as [Hdir Hkeep]. rewrite rev_involutive in Hdir.
  exists p. repeat split; try assumption.
  intros parents'. unfold create_directory, create_directory_body. io_run.
  unfold OS.is_dir in Hdir. destruct (files w1 !! p) as [[]|]; try discriminate.
  reflexivity.
Qed.

Lemma create_directory_then_exists_witness :
  let w' := (create_directory "x/y" true Sample.world0).2 in
  create_directory "x/y" true Sample.world0
  = ("Successfully created directory '" +:+ "x/y" +:+ "'", w')
  /\ exists p,
       safe_path (cwd Sample.world0) "x/y" None = Ok p
       /\ files Sample.world0 !! p = None
       /\ OS.is_dir p w' = true
       /\ (forall k n, files Sample.world0 !! k = Some n -> files w' !! k = Some n)
       /\ forall parents' : bool,
            create_directory "x/y" parents' w'
            = ("Error: Directory '" +:+ "x/y" +:+ "' already exists", w').
Proof.
  intros w'.
  assert (H1 : create_directory "x/y" true Sample.world0
               = ("Successfully created directory '" +:+ "x/y" +:+ "'", w'))
    by (vm_compute; reflexivity).
  split; [exact H1|].
  exact (create_directory_then_exists Sample.world0 w' "x/y" true H1).
Defined.



(** ** Deleting a file, and an empty directory *)

(** X11: on a regular file [delete_file] reports success and removes that
    entry and no other; a second call for the same path answers that the
    file does not exist and changes nothing. *)
Theorem delete_file_removes_only_the_file (w : world) (file_path : string) (p : rpath)
    (b : bytes) (m : stat_result) :
  safe_path (cwd w) file_path None = Ok p ->
  files w !! p = Some (File b m) ->
  exists w',
    delete_file file_path w = ("Successfully deleted file '" +:+ file_path +:+ "'", w')
    /\ files w' !! p = None
    /\ (forall k, k <> p -> files w' !! k = files w !! k)
    /\ delete_file file_path w' = ("Error: File '" +:+ file_path +:+ "' does not exist", w').
Proof.
  intros Hres Hp. eexists. split; [|split; [|split]].
  - unfold delete_file, delete_file_body. io_run. reflexivity.
  - cbn [files with_files]. apply lookup_delete_eq.
  - intros k Hk. cbn [files with_files]. by apply lookup_delete_ne.
  - unfold delete_file, delete_file_body. io_run. cbn [cwd files with_files].
    rewrite Hres. io_run. rewrite (lookup_delete_eq (files w) p). reflexivity.
Qed.

Lemma delete_file_removes_only_the_file_witness :
  let p := ["srv"; "app"; "a.txt"] in
  safe_path (cwd Sample.world0) "a.txt" None = Ok p
  /\ files Sample.world0 !! p = Some (Sample.file0 "alpha")
  /\ exists w',
       delete_file "a.txt" Sample.world0
       = ("Successfully deleted file '" +:+ "a.txt" +:+ "'", w')
       /\ files w' !! p = None
       /\ (forall k, k <> p -> files w' !! k = files Sample.world0 !! k)
       /\ delete_file "a.txt" w' = ("Error: File '" +:+ "a.txt" +:+ "' does not exist", w').
Proof.
  intros p.
  assert (H1 : safe_path (cwd Sample.world0) "a.txt" None = Ok p) by reflexivity.
  assert (H2 : files Sample.world0 !! p = Some (Sample.file0 "alpha"))
    by (vm_compute; reflexivity).
  repeat (split; [assumption|]).
  exact (delete_file_removes_only_the_file Sample.world0 "a.txt" p _ _ H1 H2).
Defined.

(** X12: on a directory without entries [delete_directory] without
    [recursive] reports success and removes that entry and no other. *)
Theorem delete_directory_empty (w : world) (dir_path : string) (d : rpath)
    (m : stat_result) :
  safe_path (cwd w) dir_path None = Ok d ->
  files w !! d = Some (Dir m) ->
  OS.entries d w = [] ->
  exists w',
    delete_directory dir_path false w
    = ("Successfully deleted empty directory '" +:+ dir_path +:+ "'", w')
    /\ files w' !! d = None
    /\ (forall k, k <> d -> files w' !! k = files w !! k).
Proof.
  intros Hres Hd Hempty. eexists. split; [|split].
  - unfold delete_directory, delete_directory_body. io_run. reflexivity.
  - cbn [files with_files]. apply lookup_delete_eq.
  - intros k Hk. cbn [files with_files]. by apply lookup_delete_ne.
Qed.

Lemma delete_directory_empty_witness :
  let d := ["srv"; "app"; "e"] in
  let w := with_files Sample.world0 (<[d := Sample.dir0]> Sample.tree) in
  safe_path (cwd w) "e" None = Ok d
  /\ files w !! d = Some Sample.dir0
  /\ OS.entries d w = []
  /\ exists w',
       delete_directory "e" false w
       = ("Successfully deleted empty directory '" +:+ "e" +:+ "'", w')
       /\ files w' !! d = None
       /\ (forall k, k <> d -> files w' !! k = files w !! k).
Proof.
  intros d w.
  assert (H1 : safe_path (cwd w) "e" None = Ok d) by reflexivity.
  assert (H2 : files w !! d = Some Sample.dir0) by (vm_compute; reflexivity).
  assert (H3 : OS.entries d w = []) by (vm_compute; reflexivity).
  repeat (split; [assumption|]).
  exact (delete_directory_empty w "e" d _ H1 H2 H3).
Defined.

(** ** Moving and copying a regular file *)

Section MoveFile.

Lemma rename_file_Ok (src dst : rpath) (b : bytes) (m : stat_result) (w : world) :
  files w !! src = Some (File b m) ->
  files w !! dst = None ->
  OS.is_dir (parent dst) w = true ->
  OS.rename src dst w
  = (Ok tt, with_files w (OS.rebased src dst id (files w) ∪ OS.outside src (files w))).
Proof.
  intros Hsrc Hdst Hpar. unfold OS.rename. rewrite Hsrc, Hdst.
  destruct (decide (src = dst)) as [->|_]; [congruence|].
  unfold OS.check_parent. unfold OS.is_dir in Hpar.
  by destruct (files w !! parent dst) as [[]|].
Qed.

End MoveFile.

(** X13: [move_file] on a regular file.  Onto an existing destination,
    without [overwrite], it answers with an error and changes nothing.  To a
    destination at and below which nothing exists, with no regular file on
    the way to its parent, it reports success: the destination then holds the
    bytes of the source with its permission bits and modification time, the
    source is gone, and apart from the directories made on the way to the
    destination nothing else changes. *)
Theorem move_file_regular_file (w : world) (source_path destination_path : string)
    (src dst : rpath) (b : bytes) (m : stat_result) :
  safe_path (cwd w) source_path None = Ok src ->
  safe_path (cwd w) destination_path None = Ok dst ->
  files w !! src = Some (File b m) ->
  (OS.exists_ dst w = true ->
   move_file source_path destination_path false w
   = ("Error: Destination '" +:+ destination_path
      +:+ "' already exists. Use overwrite=True to replace it", w))
  /\ (forall overwrite : bool,
        (forall k, dst `prefix_of` k -> files w !! k = None) ->
        OS.is_dir [] w = true ->
        (forall k, k `prefix_of` parent dst -> OS.is_file k w = false) ->
        exists w' m',
          move_file source_path destination_path overwrite w
          = ("Successfully moved '" +:+ source_path +:+ "' to '"
             +:+ destination_path +:+ "'", w')
          /\ files w' !! dst = Some (File b m')
          /\ S_IMODE (st_mode m') = S_IMODE (st_mode m)
          /\ st_mtime m' = st_mtime m
          /\ files w' !! src = None
          /\ (forall k, ~ src `prefix_of` k -> ~ dst `prefix_of` k ->
                ~ k `prefix_of` parent dst -> files w' !! k = files w !! k)).
Proof.
  intros Hs Hd Hsrc. split.
  - intros Hex. unfold move_file, move_file_body. io_run. reflexivity.
  - intros overwrite Hfree Hroot Hway.
    destruct (mkdir_Ok (parent dst) w Hroot Hway) as (w1 & Hmk & Hpar & Hother & Hkeep).
    assert (Hdst : files w !! dst = None) by (by apply Hfree).
    assert (Hnil : dst <> []).
    { intros ->. unfold OS.is_dir in Hroot. by rewrite Hdst in Hroot. }
    assert (Hdst1 : files w1 !! dst = None).
    { rewrite Hother; [done|]. by apply not_prefix_parent. }
    assert (Hnotdir1 : OS.is_dir dst w1 = false) by (unfold OS.is_dir; by rewrite Hdst1).
    pose proof (rename_file_Ok src dst b m w1 (Hkeep _ _ Hsrc) Hdst1 Hpar) as Hren.
    assert (Hmove : Lib.move src dst w1
                    = (Ok tt, with_files w1 (OS.rebased src dst id (files w1)
                                             ∪ OS.outside src (files w1)))).
    { unfold Lib.move. by rewrite Hnotdir1, Hren. }
    assert (Hguard : OS.exists_ dst w && negb overwrite = false).
    { unfold OS.exists_. by rewrite Hdst. }
    eexists. exists m. split; [|split; [|split; [reflexivity|split; [reflexivity|split]]]].
    + unfold move_file, move_file_body. io_run. reflexivity.
    + cbn [files with_files].
      pose proof (moved_lookup_new src dst [] (files w1)) as Hnew.
      rewrite !app_nil_r in Hnew. rewrite Hnew by done. by apply Hkeep.
    + cbn [files with_files]. apply moved_lookup_old; [done|].
      intros Hpre. specialize (Hfree src Hpre). congruence.
    + intros k Hsk Hdk Hpk. cbn [files with_files].
      rewrite lookup_union_r by (by apply lookup_rebased_out).
      rewrite lookup_outside_out by done. by apply Hother.
Qed.

Lemma move_file_regular_file_witness :
  let src := ["srv"; "app"; "a.txt"] in
  let dst := ["srv"; "app"; "new"; "deep"; "a.txt"] in
  safe_path (cwd Sample.world0) "a.txt" None = Ok src
  /\ safe_path (cwd Sample.world0) "new/deep/a.txt" None = Ok dst
  /\ files Sample.world0 !! src = Some (Sample.file0 "alpha")
  /\ (forall k, dst `prefix_of` k -> files Sample.world0 !! k = None)
  /\ OS.is_dir [] Sample.world0 = true
  /\ (forall k, k `prefix_of` parent dst -> OS.is_file k Sample.world0 = false)
  /\ exists w' m',
        move_file "a.txt" "new/deep/a.txt" false Sample.world0
        = ("Successfully moved '" +:+ "a.txt" +:+ "' to '"
           +:+ "new/deep/a.txt" +:+ "'", w')
        /\ files w' !! dst = Some (File (Sample.to_bytes "alpha") m')
        /\ S_IMODE (st_mode m') = S_IMODE (st_mode (Sample.meta0 33188))
        /\ st_mtime m' = st_mtime (Sample.meta0 33188)
        /\ files w' !! src = None
        /\ (forall k, ~ src `prefix_of` k -> ~ dst `prefix_of` k ->
              ~ k `prefix_of` parent dst -> files w' !! k = files Sample.world0 !! k).
Proof.
  intros src dst.
  assert (H1 : safe_path (cwd Sample.world0) "a.txt" None = Ok src) by reflexivity.
  assert (H2 : safe_path (cwd Sample.world0) "new/deep/a.txt" None = Ok dst) by reflexivity.
  assert (H3 : files Sample.world0 !! src = Some (Sample.file0 "alpha"))
    by (vm_compute; reflexivity).
  assert (H4 : forall k, dst `prefix_of` k -> files Sample.world0 !! k = None).
  { intros k [r ->]. cbn [files Sample.world0]. unfold Sample.tree.
    cbn [list_to_map foldr app uncurry fst snd].
    repeat (rewrite lookup_insert_ne by discriminate). apply lookup_empty. }
  assert (H5 : OS.is_dir [] Sample.world0 = true) by (vm_compute; reflexivity).
  assert (H6 : forall k, k `prefix_of` parent dst -> OS.is_file k Sample.world0 = false).
  { intros k [r Hr]. simpl in Hr.
    destruct k as [|a [|b [|c [|d [|e k]]]]]; simpl in Hr; simplify_eq; vm_compute; reflexivity. }
  repeat (split; [assumption|]).
  exact (proj2 (move_file_regular_file Sample.world0 "a.txt" "new/deep/a.txt" src dst _ _
                  H1 H2 H3) false H4 H5 H6).
Defined.



(** ** A listing of hidden entries only *)

Section Hidden.
Context `{Externals}.

Lemma listing_items_hidden (detailed : bool) (es : list (list string * node)) :
  forallb (fun e => Str.startswith "." (name e.1)) es = true ->
  listing_items false detailed es = Ok [].
Proof.
  induction es as [|[item n] es IH]; [reflexivity|].
  cbn [forallb listing_items fst]. intros Hall.
  apply andb_true_iff in Hall as [Hdot Hrest]. rewrite Hdot. cbn [negb andb].
  by apply IH.
Qed.

End Hidden.

(** X15: a directory all of whose entries have names that begin with a dot
    is reported as empty by [list_directory] when hidden entries are left
    out, in the plain and in the detailed form, and nothing changes. *)
Theorem list_directory_hidden_only `{Externals} (w : world) (dir_path : string)
    (d : rpath) (m : stat_result) (detailed : bool) :
  safe_path (cwd w) dir_path None = Ok d ->
  files w !! d = Some (Dir m) ->
  forallb (fun e => Str.startswith "." (name e.1)) (OS.entries d w) = true ->
  list_directory dir_path false detailed w
  = ("Directory '" +:+ dir_path +:+ "' is empty", w).
Proof.
  intros Hres Hd Hall.
  pose proof (listing_items_hidden detailed _ Hall) as Hitems.
  unfold list_directory, list_directory_body. io_run. reflexivity.
Qed.

Lemma list_directory_hidden_only_witness :
  let d := ["srv"; "app"; "h"] in
  let w := with_files Sample.world0
             (<[d ++ [".env"] := Sample.file0 "x"]> (<[d := Sample.dir0]> Sample.tree)) in
  safe_path (cwd w) "h" None = Ok d
  /\ files w !! d = Some Sample.dir0
  /\ OS.entries d w = [(d ++ [".env"], Sample.file0 "x")]
  /\ forallb (fun e => Str.startswith "." (name e.1)) (OS.entries d w) = true
  /\ @list_directory (Sample.platform LF) "h" false true w
     = ("Directory '" +:+ "h" +:+ "' is empty", w).
Proof.
  intros d w.
  assert (H1 : safe_path (cwd w) "h" None = Ok d) by reflexivity.
  assert (H2 : files w !! d = Some Sample.dir0) by (vm_compute; reflexivity).
  assert (H3 : OS.entries d w = [(d ++ [".env"], Sample.file0 "x")])
    by (vm_compute; reflexivity).
  assert (H4 : forallb (fun e => Str.startswith "." (name e.1)) (OS.entries d w) = true)
    by (vm_compute; reflexivity).
  repeat (split; [assumption|]).
  exact (@list_directory_hidden_only (Sample.platform LF) w "h" d _ true H1 H2 H4).
Defined.

(** ** The size of a negative count *)

Section Negative.

Local Open Scope Z_scope.

Lemma round53_within (n : Z) : (Z.abs n < 2 ^ 53)%Z -> Num.round53 n = n.
Proof.
  intros Hn. unfold Num.round53.
  destruct (Z.leb_spec (Z.log2 (Z.abs n) + 1) 53) as [_|Hbits]; [reflexivity|].
  exfalso. destruct (Z.eq_dec (Z.abs n) 0%Z) as [H0|Hne].
  - rewrite H0 in Hbits. simpl in Hbits. lia.
  - assert (Z.log2 (Z.abs n) < 53)%Z by (apply Z.log2_lt_pow2; lia). lia.
Qed.

Lemma tenths_whole (f : Z) : Num.tenths f 0 = (10 * Z.abs f)%Z.
Proof.
  unfold Num.tenths, Num.round_half_even. change (1024 ^ Z.of_nat 0)%Z with 1%Z.
  rewrite Z.mod_1_r, Z.div_1_r. reflexivity.
Qed.

End Negative.

(** X16: a negative count is never scaled: whatever its magnitude (here
    within the integers that a double holds exactly) [_format_size] shows it
    in bytes, with its sign and one decimal zero, as in [-5000.0 B]. *)
Theorem format_size_negative (n : Z) :
  (- 2 ^ 53 < n < 0)%Z ->
  _format_size n = Ok ("-" +:+ pretty (- n)%Z +:+ ".0 B").
Proof.
  intros Hn. unfold _format_size. cbn [format_size_loop Num.lt_1024].
  assert (Hlt : (n <? 1024)%Z = true) by (apply Z.ltb_lt; lia). rewrite Hlt.
  cbn [Num.format_1f]. unfold Num.int_to_float.
  rewrite round53_within by lia.
  assert (Hfin : (Z.abs n <? 2 ^ 1024)%Z = true).
  { apply Z.ltb_lt. assert (2 ^ 53 < 2 ^ 1024)%Z by (apply Z.pow_lt_mono_r; lia). lia. }
  rewrite Hfin. cbn [bind].
  assert (Hneg : (n <? 0)%Z = true) by (apply Z.ltb_lt; lia). rewrite Hneg.
  rewrite tenths_whole. unfold Num.tenths_text.
  replace (10 * Z.abs n / 10)%Z with (- n)%Z
    by (rewrite Z.mul_comm, Z.div_mul by lia; lia).
  replace (10 * Z.abs n mod 10)%Z with 0%Z
    by (rewrite Z.mul_comm, Z.mod_mul by lia; reflexivity).
  f_equal. rewrite !append_assoc. reflexivity.
Qed.

Lemma format_size_negative_witness :
  (- 2 ^ 53 < -5000 < 0)%Z /\ _format_size (-5000) = Ok "-5000.0 B".
Proof.
  assert (H1 : (- 2 ^ 53 < -5000 < 0)%Z) by lia.
  split; [exact H1|]. exact (format_size_negative (-5000) H1).
Defined.

(** ** What [read_file] returns, and what a failed [write_file] leaves *)

Section NoCarriageReturn.




Lemma mkdir_existing (q : rpath) (parents : bool) (w : world) :
  OS.is_dir q w = true -> Lib.mkdir q parents true w = (Ok tt, w).
Proof.
  intros Hq.
  assert (Hrev : forall rp, rev rp = q -> Lib.mkdir_rev rp parents true w = (Ok tt, w)).
  { intros rp Hrp. unfold OS.is_dir in Hq.
    destruct (files w !! q) as [[]|] eqn:Hf; try discriminate.
    destruct rp as [|c rp]; cbn [Lib.mkdir_rev]; rewrite Hrp;
      unfold OS.mkdir, OS.is_dir; rewrite Hf; reflexivity. }
  apply Hrev, rev_involutive.
Qed.

End NoCarriageReturn.



(** X18: [write_file] opens the file, which empties it, before the encoding
    is looked up and the content encoded.  So on an existing regular file,
    an unknown encoding, or content that the codec cannot encode, makes
    [write_file] answer with an error and leave the file empty; no other
    entry changes. *)
Theorem write_file_failure_empties_file `{Externals} (w : world)
    (file_path content encoding : string) (create_dirs : bool)
    (p : rpath) (b : bytes) (m : stat_result) :
  safe_path (cwd w) file_path None = Ok p ->
  files w !! p = Some (File b m) ->
  (create_dirs = true -> OS.is_dir (parent p) w = true) ->
  let emptied := with_files w (<[p := File [] (touched w m)]> (files w)) in
  (codecs_lookup encoding = None ->
   write_file file_path content encoding create_dirs w
   = ("Error writing file: unknown encoding: " +:+ encoding, emptied))
  /\ (forall c e,
        codecs_lookup encoding = Some c ->
        encode c (TextIO.translate_newlines os_linesep content) = Raise e ->
        write_file file_path content encoding create_dirs w
        = ("Error writing file: " +:+ str_exn e, emptied)).
Proof.
  intros Hres Hp Hpar emptied.
  assert (Hmk : (if create_dirs then Lib.mkdir (parent p) true true else ret tt) w
                = (Ok tt, w)).
  { destruct create_dirs; [|reflexivity]. apply mkdir_existing. by apply Hpar. }
  split.
  - intros Hnone. unfold write_file, write_file_body, TextIO.write_text,
      TextIO.lookup_codec, OS.open_w. io_run. reflexivity.
  - intros c e Hc He. unfold write_file, write_file_body, TextIO.write_text,
      TextIO.lookup_codec, OS.open_w. io_run. reflexivity.
Qed.

Lemma write_file_failure_empties_file_witness :
  let E := Sample.platform LF in
  let p := ["srv"; "app"; "a.txt"] in
  let content := String "233" "x" in
  let e := UnicodeError "'ascii' codec can't encode characters: ordinal not in range(128)" in
  safe_path (cwd Sample.world0) "a.txt" None = Ok p
  /\ files Sample.world0 !! p = Some (Sample.file0 "alpha")
  /\ (true = true -> OS.is_dir (parent p) Sample.world0 = true)
  /\ @codecs_lookup E "ascii" = Some Sample.ascii7
  /\ encode Sample.ascii7 (TextIO.translate_newlines (@os_linesep E) content) = Raise e
  /\ @write_file E "a.txt" content "ascii" true Sample.world0
     = ("Error writing file: " +:+ str_exn e,
        with_files Sample.world0
          (<[p := File [] (touched Sample.world0 (Sample.meta0 33188))]>
             (files Sample.world0))).
Proof.
  intros E p content e.
  assert (H1 : safe_path (cwd Sample.world0) "a.txt" None = Ok p) by reflexivity.
  assert (H2 : files Sample.world0 !! p = Some (Sample.file0 "alpha"))
    by (vm_compute; reflexivity).
  assert (H3 : true = true -> OS.is_dir (parent p) Sample.world0 = true)
    by (intros _; vm_compute; reflexivity).
  assert (H4 : @codecs_lookup E "ascii" = Some Sample.ascii7) by reflexivity.
  assert (H5 : encode Sample.ascii7 (TextIO.translate_newlines (@os_linesep E) content)
               = Raise e) by (vm_compute; reflexivity).
  repeat (split; [assumption|]).
  exact (proj2 (@write_file_failure_empties_file E Sample.world0 "a.txt" content "ascii" true
                  p _ _ H1 H2 H3) Sample.ascii7 e H4 H5).
Defined.
